(** * Movie recommendation engine: normalisation, TF-IDF index, top-N ranking

    A shallow embedding of [recommendation_engine.py].  The module keeps three
    globals ([movies_df], [tfidf_vectorizer], [tfidf_matrix]);
    [load_and_preprocess_data] rebuilds them from the CSV file and
    [get_recommendations] reads them.

    The library calls the module makes (pandas [read_csv], [dropna] and
    [iloc], scikit-learn [TfidfVectorizer] and [cosine_similarity]) are
    modelled from their documented behaviour with default parameters; the two
    stop word tables are parameters.  Text is modelled over code points below
    256 and the columns of the file are read as text.  Weights and similarity
    scores are exact real numbers in the engine; module [F64] computes the
    same scores in the float64 arithmetic of the code. *)

From Stdlib Require Import List Bool Arith Lia String Ascii.
From Stdlib Require Import Reals Lra Psatz.
From Stdlib Require Import Sorting.Sorted Sorting.Permutation.
From Stdlib Require Import DecimalString ZArith.
From Stdlib Require Floats.PrimFloat Numbers.Cyclic.Int63.Uint63.
Import ListNotations.

Local Open Scope string_scope.
Local Open Scope list_scope.
Local Open Scope nat_scope.

(** ** Python [str] primitives used by the engine *)

Module PyStr.

Definition ord (c : ascii) : nat := nat_of_ascii c.

Definition between (lo hi n : nat) : bool := (lo <=? n) && (n <=? hi).

(** [a-z] *)
Definition is_lower_az (c : ascii) : bool := between 97 122 (ord c).

(** [0-9] *)
Definition is_digit (c : ascii) : bool := between 48 57 (ord c).

(** [str.isspace] on one character, which is also what [\s] matches in a
    [str] pattern: TAB..CR, FS..US, SPACE, NEL and NBSP. *)
Definition isspace (c : ascii) : bool :=
  let n := ord c in
  between 9 13 n || between 28 32 n || (n =? 133) || (n =? 160).

(** Characters with a different lowercase form: [A-Z] and the Latin-1
    capitals (all of U+00C0..U+00DE but the multiplication sign). *)
Definition has_lowercase (c : ascii) : bool :=
  let n := ord c in
  between 65 90 n || (between 192 222 n && negb (n =? 215)).

Definition lower_char (c : ascii) : ascii :=
  if has_lowercase c then ascii_of_nat (ord c + 32) else c.

(** [text.lower()] *)
Fixpoint lower (text : string) : string :=
  match text with
  | EmptyString => EmptyString
  | String c rest => String (lower_char c) (lower rest)
  end.

(** [re.sub(r'[^a-z0-9\s]', '', text)]: every character outside the class is
    deleted. *)
Definition kept (c : ascii) : bool := is_lower_az c || is_digit c || isspace c.

Fixpoint strip_special (text : string) : string :=
  match text with
  | EmptyString => EmptyString
  | String c rest =>
      if kept c then String c (strip_special rest) else strip_special rest
  end.

(** Prepend a character to the run being read. *)
Definition push_char (c : ascii) (ws : list string) : list string :=
  match ws with
  | [] => [String c EmptyString]
  | w :: ws' => String c w :: ws'
  end.

(** The maximal runs of characters that are not separators, left to right. *)
Fixpoint fields (sep : ascii -> bool) (text : string) : list string :=
  match text with
  | EmptyString => []
  | String c rest =>
      if sep c then fields sep rest
      else match rest with
           | EmptyString => [String c EmptyString]
           | String c' _ =>
               if sep c' then String c EmptyString :: fields sep rest
               else push_char c (fields sep rest)
           end
  end.

(** [text.split()]: the maximal runs of non-whitespace characters. *)
Definition split (text : string) : list string := fields isspace text.

(** Every character of the text satisfies the test. *)
Fixpoint all_chars (P : ascii -> bool) (text : string) : bool :=
  match text with
  | EmptyString => true
  | String c rest => P c && all_chars P rest
  end.

(** [' '.join(words)] *)
Fixpoint join (words : list string) : string :=
  match words with
  | [] => EmptyString
  | [w] => w
  | w :: ws => String.append w (String " " (join ws))
  end.

(** [word in words], on lists of strings. *)
Definition mem (word : string) (words : list string) : bool :=
  existsb (String.eqb word) words.

(** [\w] on the ASCII range, [[a-zA-Z0-9_]]: the engine only hands the
    vectorizer text made of [[a-z0-9]] words and single spaces. *)
Definition is_word_char (c : ascii) : bool :=
  is_lower_az c || is_digit c || between 65 90 (ord c) || (ord c =? 95).

(** [re.findall(r"(?u)\b\w\w+\b", text)]: the maximal runs of word characters
    that are at least two characters long. *)
Definition findall_tokens (text : string) : list string :=
  filter (fun w => 2 <=? String.length w)
         (fields (fun c => negb (is_word_char c)) text).

End PyStr.

(** ** Real vectors: the rows of the TF-IDF matrix *)

Module Vec.

Local Open Scope R_scope.

Definition vector := list R.

(** Inner product of two rows over the same features. *)
Fixpoint dot (u v : vector) : R :=
  match u, v with
  | x :: u', y :: v' => x * y + dot u' v'
  | _, _ => 0
  end.


(** [sklearn.preprocessing.normalize(X, norm='l2')] on one row: a row whose
    squared sum is zero is left as it is, any other row is divided by its
    Euclidean norm. *)
Definition normalize (v : vector) : vector :=
  let s := dot v v in
  if Req_dec_T s 0 then v else map (fun x => x / sqrt s) v.

End Vec.

(** ** Exceptions and results *)

Inductive exn : Type :=
| FileNotFoundError
| ReadError
| AttributeError
| ValueError
| NotFittedError
| IndexError.

Inductive result (A : Type) : Type :=
| Ok (a : A)
| Raise (e : exn).

Arguments Ok {A} a.
Arguments Raise {A} e.

Definition bind {A B : Type} (r : result A) (k : A -> result B) : result B :=
  match r with
  | Ok a => k a
  | Raise e => Raise e
  end.

Notation "x <- r ;; k" := (bind r (fun x => k))
  (at level 61, r at next level, right associativity).

(** [ [f(x) for x in xs] ] where [f] may raise: the first exception wins. *)
Fixpoint traverse {A B : Type} (f : A -> result B) (xs : list A)
  : result (list B) :=
  match xs with
  | [] => Ok []
  | x :: xs' => y <- f x ;; ys <- traverse f xs' ;; Ok (y :: ys)
  end.

(** ** pandas: the movie table *)

(** A cell of a text column: a string, or NaN ([None]) for a missing value. *)
Definition cell := option string.

(** One row, with the two columns the engine reads. *)
Record movie : Type := { Movie_Name : cell; Storyline : cell }.

(** The table; the ['Cleaned Storyline'] column exists once it was assigned. *)
Record DataFrame : Type :=
  { records : list movie; Cleaned_Storyline : option (list string) }.

(** One record of the CSV file: the raw text of each field, [None] when the
    record has no such field. *)
Record csv_record : Type :=
  { name_field : option string; storyline_field : option string }.

(** What [DATA_FILE] holds when it is read. *)
Inductive csv_file : Type :=
| NoSuchFile
| Unreadable
| Records (rs : list csv_record).

(** The field texts [read_csv] turns into NaN by default. *)
Definition na_values : list string :=
  [""; "#N/A"; "#N/A N/A"; "#NA"; "-1.#IND"; "-1.#QNAN"; "-NaN"; "-nan";
   "1.#IND"; "1.#QNAN"; "<NA>"; "N/A"; "NA"; "NULL"; "NaN"; "None"; "n/a";
   "nan"; "null"].

Definition parse_field (f : option string) : cell :=
  match f with
  | None => None
  | Some s => if PyStr.mem s na_values then None else Some s
  end.

Definition parse_record (r : csv_record) : movie :=
  {| Movie_Name := parse_field (name_field r);
     Storyline := parse_field (storyline_field r) |}.

(** [pd.read_csv(DATA_FILE)], for a file whose two columns are read as text.
    A column in which every value can be read as a number or a boolean gets
    a numeric type in pandas: such files are outside this model. *)
Definition read_csv (file : csv_file) : result DataFrame :=
  match file with
  | NoSuchFile => Raise FileNotFoundError
  | Unreadable => Raise ReadError
  | Records rs => Ok {| records := map parse_record rs;
                        Cleaned_Storyline := None |}
  end.

Definition notna (c : cell) : bool :=
  match c with Some _ => true | None => false end.

(** [df.dropna(subset=['Storyline'])] *)
Definition dropna_Storyline (df : DataFrame) : DataFrame :=
  {| records := filter (fun m => notna (Storyline m)) (records df);
     Cleaned_Storyline := Cleaned_Storyline df |}.

(** The storyline field of a record is absent or empty. *)
Definition no_storyline (r : csv_record) : bool :=
  match storyline_field r with
  | None => true
  | Some text => String.eqb text EmptyString
  end.

(** The records of a file that survive [dropna]. *)
Definition usable_movies (rs : list csv_record) : list movie :=
  filter (fun m => notna (Storyline m)) (map parse_record rs).

(** The text of a cell, for cells that are known not to be NaN. *)
Definition storyline_text (m : movie) : string :=
  match Storyline m with Some text => text | None => EmptyString end.

(** [df.iloc[indices]]: rows by position; a position past the end raises. *)
Definition iloc (df : DataFrame) (indices : list nat) : result (list movie) :=
  traverse (fun i => match nth_error (records df) i with
                     | Some m => Ok m
                     | None => Raise IndexError
                     end) indices.

(** ** Ranking: [sorted(..., key=lambda x: x[1], reverse=True)] *)

Section Ranking.

Variable A : Type.
(** [gt a b]: the key of [a] is strictly greater than the key of [b]. *)
Variable gt : A -> A -> bool.

(** [x] is older than every element of [l] in the input order: it goes in
    front of the first element whose key is not greater than its own. *)
Fixpoint insert_desc (x : A) (l : list A) : list A :=
  match l with
  | [] => [x]
  | y :: l' => if gt y x then y :: insert_desc x l' else x :: l
  end.

(** A stable sort by decreasing key: elements with equal keys keep the order
    they had in the input. *)
Definition sorted_reverse (l : list A) : list A := fold_right insert_desc [] l.

End Ranking.

Arguments insert_desc {A} gt x l.
Arguments sorted_reverse {A} gt l.

(** [list(enumerate(xs))] *)
Definition enumerate {A : Type} (xs : list A) : list (nat * A) :=
  combine (seq 0 (List.length xs)) xs.

Definition Rgtb (x y : R) : bool := if Rlt_dec y x then true else false.

(** ** scikit-learn: TF-IDF matrix and cosine similarity *)

(** A sparse matrix seen through its shape and its rows. *)
Record matrix : Type := { n_features : nat; rows : list Vec.vector }.

(** [cosine_similarity(X, Y)[0]] for a one-row [X]: both sides are
    L2-normalised, then multiplied.  Different numbers of features, or a [Y]
    without rows, raise. *)
Definition cosine_similarity (user_vector : Vec.vector) (Y : matrix)
  : result (list R) :=
  if negb (List.length user_vector =? n_features Y) then Raise ValueError
  else match rows Y with
       | [] => Raise ValueError
       | _ => Ok (map (fun y => Vec.dot (Vec.normalize user_vector)
                                           (Vec.normalize y)) (rows Y))
       end.

(** A [TfidfVectorizer]: the resolved stop word list and, once fitted, the
    sorted vocabulary with the idf weight of each term. *)
Record TfidfVectorizer : Type :=
  { stop_words : list string;
    fitted : option (list string * Vec.vector) }.

(** The analyzer of a vectorizer with default settings: lowercase, find the
    tokens, drop the stop words. *)
Definition build_analyzer (v : TfidfVectorizer) (doc : string) : list string :=
  filter (fun w => negb (PyStr.mem w (stop_words v)))
         (PyStr.findall_tokens (PyStr.lower doc)).

(** The vocabulary is kept sorted and without duplicates. *)
Fixpoint vocab_insert (t : string) (vocab : list string) : list string :=
  match vocab with
  | [] => [t]
  | u :: rest =>
      match String.compare t u with
      | Lt => t :: vocab
      | Eq => vocab
      | Gt => u :: vocab_insert t rest
      end
  end.

Definition build_vocabulary (docs : list (list string)) : list string :=
  fold_right vocab_insert [] (List.concat docs).

(** Number of documents that contain the term. *)
Definition document_frequency (docs : list (list string)) (t : string) : nat :=
  List.length (filter (PyStr.mem t) docs).

(** Smoothed inverse document frequency: [ln((1 + n) / (1 + df)) + 1]. *)
Definition idf_weight (docs : list (list string)) (t : string) : R :=
  (ln ((1 + INR (List.length docs)) / (1 + INR (document_frequency docs t)))
   + 1)%R.

(** One row of the TF-IDF matrix: term counts times idf, L2-normalised. *)
Definition tfidf_row (vocab : list string) (idf : Vec.vector)
  (tokens : list string) : Vec.vector :=
  Vec.normalize
    (map (fun tw => (INR (count_occ string_dec tokens (fst tw)) * snd tw)%R)
         (combine vocab idf)).

(** [v.fit_transform(docs)]: learns vocabulary and idf and returns the fitted
    vectorizer with the matrix; an empty vocabulary raises and leaves the
    vectorizer unfitted. *)
Definition fit_transform (v : TfidfVectorizer) (docs : list string)
  : result (TfidfVectorizer * matrix) :=
  let analyzed := map (build_analyzer v) docs in
  let vocab := build_vocabulary analyzed in
  match vocab with
  | [] => Raise ValueError
  | _ =>
      let idf := map (idf_weight analyzed) vocab in
      Ok ({| stop_words := stop_words v; fitted := Some (vocab, idf) |},
          {| n_features := List.length vocab;
             rows := map (tfidf_row vocab idf) analyzed |})
  end.

(** [v.transform([doc])]: the row of one document over the fitted vocabulary;
    terms outside the vocabulary are ignored. *)
Definition transform (v : TfidfVectorizer) (doc : string) : result Vec.vector :=
  match fitted v with
  | None => Raise NotFittedError
  | Some (vocab, idf) => Ok (tfidf_row vocab idf (build_analyzer v doc))
  end.

(** ** The engine: [recommendation_engine.py] *)

Definition RECOMMENDATION_COUNT : nat := 5.

(** The three module-level globals; [None] is Python's [None]. *)
Record globals : Type :=
  { movies_df : option DataFrame;
    tfidf_vectorizer : option TfidfVectorizer;
    tfidf_matrix : option matrix }.

(** The globals as the module is imported. *)
Definition initial_globals : globals :=
  {| movies_df := None; tfidf_vectorizer := None; tfidf_matrix := None |}.

(** Statements that read and assign the globals and may raise: an exception
    keeps the assignments made before it. *)
Definition stmt (A : Type) : Type := globals -> result A * globals.

Definition ret {A : Type} (a : A) : stmt A := fun g => (Ok a, g).

Definition seq_stmt {A B : Type} (m : stmt A) (k : A -> stmt B) : stmt B :=
  fun g => match m g with
           | (Ok a, g') => k a g'
           | (Raise e, g') => (Raise e, g')
           end.

Definition eval {A : Type} (r : result A) : stmt A := fun g => (r, g).

Definition assign_movies_df (df : DataFrame) : stmt unit :=
  fun g => (Ok tt, {| movies_df := Some df;
                      tfidf_vectorizer := tfidf_vectorizer g;
                      tfidf_matrix := tfidf_matrix g |}).

Definition assign_tfidf_vectorizer (v : TfidfVectorizer) : stmt unit :=
  fun g => (Ok tt, {| movies_df := movies_df g;
                      tfidf_vectorizer := Some v;
                      tfidf_matrix := tfidf_matrix g |}).

Definition assign_tfidf_matrix (m : matrix) : stmt unit :=
  fun g => (Ok tt, {| movies_df := movies_df g;
                      tfidf_vectorizer := tfidf_vectorizer g;
                      tfidf_matrix := Some m |}).

Notation "'let*' x ':=' m 'in' k" := (seq_stmt m (fun x => k))
  (at level 10, x pattern, m at level 100, k at level 200).
Notation "m ';;;' k" := (seq_stmt m (fun _ => k))
  (at level 62, right associativity).

Section Engine.

(** [stopwords.words('english')] of NLTK. *)
Variable nltk_english : list string.
(** The list behind [stop_words='english'] in scikit-learn. *)
Variable sklearn_english : list string.

(** The nested [clean_text] of [load_and_preprocess_data]. *)
Definition clean_text (text : string) : string :=
  let text := PyStr.lower text in
  let text := PyStr.strip_special text in
  let text :=
    PyStr.join (filter (fun word => negb (PyStr.mem word nltk_english))
                       (PyStr.split text)) in
  text.

(** [movies_df['Storyline'].apply(clean_text)]: a NaN cell is a float and has
    no [lower].  (So has a number, in a column that is not read as text.) *)
Definition apply_clean_text (df : DataFrame) : result (list string) :=
  traverse (fun m => match Storyline m with
                     | Some text => Ok (clean_text text)
                     | None => Raise AttributeError
                     end) (records df).

(** The body of the [try] block of [load_and_preprocess_data]. *)
Definition try_block (file : csv_file) : stmt unit :=
  let* df := eval (read_csv file) in
  assign_movies_df df ;;;
  let df := dropna_Storyline df in
  assign_movies_df df ;;;
  let* cleaned := eval (apply_clean_text df) in
  let df := {| records := records df; Cleaned_Storyline := Some cleaned |} in
  assign_movies_df df ;;;
  let v := {| stop_words := sklearn_english; fitted := None |} in
  assign_tfidf_vectorizer v ;;;
  let* fm := eval (fit_transform v cleaned) in
  assign_tfidf_vectorizer (fst fm) ;;;
  assign_tfidf_matrix (snd fm).

(** [load_and_preprocess_data()]: both [except] clauses return [False]. *)
Definition load_and_preprocess_data (file : csv_file) (g : globals)
  : bool * globals :=
  match try_block file g with
  | (Ok _, g') => (true, g')
  | (Raise FileNotFoundError, g') => (false, g')
  | (Raise _, g') => (false, g')
  end.

(** A run of builds that all return [False]: the globals they leave behind. *)
Fixpoint failed_builds (files : list csv_file) (g : globals) : option globals :=
  match files with
  | [] => Some g
  | file :: more =>
      match load_and_preprocess_data file g with
      | (false, g') => failed_builds more g'
      | (true, _) => None
      end
  end.

(** The ranking steps of [get_recommendations]. *)
Definition similarity_scores (cosine_sim : list R) : list (nat * R) :=
  sorted_reverse (fun a b => Rgtb (snd a) (snd b)) (enumerate cosine_sim).

Definition top_indices (cosine_sim : list R) : list nat :=
  map fst (firstn RECOMMENDATION_COUNT (similarity_scores cosine_sim)).

(** The preprocessing [get_recommendations] applies to the user's text. *)
Definition preprocess_user_input (user_storyline : string) : string :=
  let user_storyline := PyStr.lower user_storyline in
  let user_storyline := PyStr.strip_special user_storyline in
  PyStr.join (filter (fun word => negb (PyStr.mem word nltk_english))
                     (PyStr.split user_storyline)).

(** [get_recommendations(user_storyline)] *)
Definition get_recommendations (g : globals) (user_storyline : string)
  : result (list movie) :=
  match movies_df g, tfidf_vectorizer g, tfidf_matrix g with
  | Some df, Some v, Some m =>
      let user_storyline := preprocess_user_input user_storyline in
      user_vector <- transform v user_storyline ;;
      cosine_sim <- cosine_similarity user_vector m ;;
      iloc df (top_indices cosine_sim)
  | _, _, _ => Ok []
  end.

(** The value of the local [cosine_sim[0]] for a query, when the guard of
    [get_recommendations] lets the query through. *)
Definition cosine_sim_of (g : globals) (user_storyline : string)
  : option (result (list R)) :=
  match movies_df g, tfidf_vectorizer g, tfidf_matrix g with
  | Some _, Some v, Some m =>
      Some (user_vector <- transform v (preprocess_user_input user_storyline) ;;
            cosine_similarity user_vector m)
  | _, _, _ => None
  end.

End Engine.

(** ** Vocabulary of the statements *)

(** Document [i] is ranked before document [j]: a strictly higher score, or
    the same score and an earlier place in the corpus. *)
Definition outranks (scores : list R) (i j : nat) : Prop :=
  exists si sj,
    nth_error scores i = Some si /\ nth_error scores j = Some sj /\
    ((sj < si)%R \/ (si = sj /\ i < j)).

(** The same relation on the (index, score) pairs that are sorted. *)
Definition prec (a b : nat * R) : Prop :=
  (snd b < snd a)%R \/ (snd a = snd b /\ fst a < fst b).

(** The words of a text once lowercased and stripped of special characters,
    before any stop word is removed. *)
Definition raw_words (text : string) : list string :=
  PyStr.split (PyStr.strip_special (PyStr.lower text)).

(** A word reaches the term vector: it is on neither stop list and is at
    least two characters long. *)
Definition survives (nltk_english sklearn_english : list string)
  (word : string) : bool :=
  negb (PyStr.mem word nltk_english || PyStr.mem word sklearn_english)
  && (2 <=? String.length word).

(** A text that is empty or made of whitespace only. *)
Definition blank (text : string) : bool := PyStr.all_chars PyStr.isspace text.

(** ** A small corpus *)

Definition sample_nltk : list string :=
  ["i"; "a"; "an"; "the"; "and"; "is"; "his"; "he"; "where"].

Definition sample_sklearn : list string :=
  ["a"; "an"; "the"; "and"; "is"; "his"; "he"; "where"; "also"; "along"].

Definition record_A : csv_record :=
  {| name_field := Some "A";
     storyline_field := Some "a wizard battles a dragon" |}.

Definition record_B : csv_record :=
  {| name_field := Some "B";
     storyline_field := Some "a detective solves a murder" |}.

(** A record whose storyline field is empty. *)
Definition record_C : csv_record :=
  {| name_field := Some "C"; storyline_field := Some "" |}.

Definition movie_A : movie :=
  {| Movie_Name := Some "A"; Storyline := Some "a wizard battles a dragon" |}.

Definition movie_B : movie :=
  {| Movie_Name := Some "B"; Storyline := Some "a detective solves a murder" |}.

Definition sample_file : csv_file := Records [record_A; record_C; record_B].

(** A readable file without a single usable record. *)
Definition empty_file : csv_file := Records [record_C].

(** The globals after one build on the sample file in a new process. *)
Definition sample_globals : globals :=
  snd (load_and_preprocess_data sample_nltk sample_sklearn sample_file
         initial_globals).

(** The globals after a further build, on the file without a usable record. *)
Definition half_built_globals : globals :=
  snd (load_and_preprocess_data sample_nltk sample_sklearn empty_file
         sample_globals).

(** The globals of a process in which only builds that failed were run. *)
Definition never_built_globals : globals :=
  {| movies_df := Some {| records := []; Cleaned_Storyline := Some [] |};
     tfidf_vectorizer :=
       Some {| stop_words := sample_sklearn; fitted := None |};
     tfidf_matrix := None |}.

(** A storyline with a one-letter word that is on neither stop list. *)
Definition record_X : csv_record :=
  {| name_field := Some "X"; storyline_field := Some "x wizard" |}.

(** ** The scraper: [scraper.py] *)

Module Scraper.

(** [text.lstrip()] and [text.rstrip()] without argument: whitespace goes. *)
Fixpoint lstrip (text : string) : string :=
  match text with
  | EmptyString => EmptyString
  | String c rest => if PyStr.isspace c then lstrip rest else text
  end.

Fixpoint rstrip (text : string) : string :=
  match text with
  | EmptyString => EmptyString
  | String c rest =>
      match rstrip rest with
      | EmptyString => if PyStr.isspace c then EmptyString
                       else String c EmptyString
      | kept => String c kept
      end
  end.

(** [text.strip()] *)
Definition strip (text : string) : string := rstrip (lstrip text).

(** [text.split(' ', 1)[1]]: what follows the first space character; without
    a space the list has one element and the index raises. *)
Fixpoint after_first_space (text : string) : option string :=
  match text with
  | EmptyString => None
  | String c rest =>
      if Ascii.eqb c " " then Some rest else after_first_space rest
  end.

(** One element of [movie_list_items], seen through the two lookups the loop
    makes: the [text] of the title element and of the storyline element,
    [None] when [find_element] finds no such element and raises. *)
Record list_item : Type :=
  { title_text : option string; storyline_element_text : option string }.

(** One dictionary of [movie_data]. *)
Record scraped_movie : Type :=
  { scraped_name : string; scraped_storyline : string }.

(** What can go wrong inside the [try] of the loop. *)
Inductive scrape_exn : Type :=
| NoSuchElementException
| ListIndexError.

Definition is_empty (text : string) : bool :=
  match text with EmptyString => true | String _ _ => false end.

(** The body of the [try] for one item. *)
Definition scrape_item (item : list_item) : scrape_exn + scraped_movie :=
  match title_text item with
  | None => inl NoSuchElementException
  | Some title =>
      let movie_name :=
        if is_empty title then Some "N/A"
        else option_map strip (after_first_space title) in
      match movie_name with
      | None => inl ListIndexError
      | Some movie_name =>
          match storyline_element_text item with
          | None => inl NoSuchElementException
          | Some text =>
              let storyline := if is_empty text then "N/A" else strip text in
              inr {| scraped_name := movie_name;
                     scraped_storyline := storyline |}
          end
      end
  end.

(** [scrape_imdb()], as a function of the list items the page shows: an item
    that raises is skipped. *)
Fixpoint scrape_imdb (movie_list_items : list list_item) : list scraped_movie :=
  match movie_list_items with
  | [] => []
  | item :: items =>
      match scrape_item item with
      | inr entry => entry :: scrape_imdb items
      | inl _ => scrape_imdb items
      end
  end.

(** [pd.DataFrame(scraped_movies).to_csv(CSV_FILE_PATH, index=False)]: one
    record per dictionary; without any dictionary the frame has no column and
    the file written has nothing [read_csv] can parse. *)
Definition to_csv (scraped_movies : list scraped_movie) : csv_file :=
  match scraped_movies with
  | [] => Unreadable
  | _ => Records (map (fun e => {| name_field := Some (scraped_name e);
                                   storyline_field := Some (scraped_storyline e) |})
                      scraped_movies)
  end.

(** The [__main__] block: scrape, then save. *)
Definition main (movie_list_items : list list_item) : csv_file :=
  to_csv (scrape_imdb movie_list_items).

(** A text without whitespace at either end. *)
Definition stripped (text : string) : Prop :=
  lstrip text = text /\ rstrip text = text.

End Scraper.

(** ** The web page: [app.py], from the engine load on *)

(** The Streamlit calls the script makes. *)
Inductive st_call : Type :=
| st_error (body : string)
| st_error_exception (prefix : string) (e : exn)
| st_warning (body : string)
| st_markdown (body : string)
| st_write (body : string).

(** One run of the script: what it showed, whether [st.stop()] ended it, and
    the globals of the engine module afterwards. *)
Record script_run : Type :=
  { calls : list st_call; stopped : bool; globals_after : globals }.

(** A cell inside an f-string. *)
Definition show_cell (c : cell) : string :=
  match c with Some text => text | None => "nan" end.

Definition decimal (n : nat) : string :=
  DecimalString.NilEmpty.string_of_uint (Nat.to_uint n).

(** The body of the [for i, movie in enumerate(recommendations)] loop. *)
Definition show_movie (im : nat * movie) : list st_call :=
  [st_markdown
     (String.append "*"
        (String.append (decimal (fst im + 1))
           (String.append ". "
              (String.append (show_cell (Movie_Name (snd im))) "*"))));
   st_write (String.append "*Storyline:* " (show_cell (Storyline (snd im))));
   st_markdown "---"].

Definition is_warning (c : st_call) : bool :=
  match c with st_warning _ => true | _ => false end.

Definition is_error (c : st_call) : bool :=
  match c with
  | st_error _ | st_error_exception _ _ => true
  | _ => false
  end.

Section App.

Variable nltk_english : list string.
Variable sklearn_english : list string.

(** The block under [if st.button("Get Recommendations")]. *)
Definition on_click (g : globals) (user_storyline : string) : list st_call :=
  if negb (Scraper.is_empty user_storyline) then
    let attempt :=
      match get_recommendations nltk_english g user_storyline with
      | Ok recommendations => ([], recommendations)
      | Raise e =>
          ([st_error_exception
              "An error occurred while getting recommendations: " e], [])
      end in
    fst attempt ++
    match snd attempt with
    | [] => [st_warning
               "No recommendations found for this storyline. Try a different one."]
    | recommendations =>
        st_markdown "### Top 5 Recommended Movies"
        :: flat_map show_movie (enumerate recommendations)
    end
  else [st_warning "Please enter a storyline to get recommendations."].

(** One run of the script from the engine load on.  [user_storyline] is what
    the text area holds and [clicked] what the button returns; the build
    catches its own exceptions, so the handler around it has nothing to
    catch. *)
Definition app_script (file : csv_file) (g : globals)
  (user_storyline : string) (clicked : bool) : script_run :=
  match load_and_preprocess_data nltk_english sklearn_english file g with
  | (false, g') =>
      {| calls :=
           [st_error
              "Could not load the recommendation engine. Please ensure 'imdb_2024_movies.csv' exists."];
         stopped := true;
         globals_after := g' |}
  | (true, g') =>
      {| calls := if clicked then on_click g' user_storyline else [];
         stopped := false;
         globals_after := g' |}
  end.

End App.

(** ** The scores in the arithmetic of the code: float64 *)

Module F64.

Import PrimFloat.

Definition vector := list float.

(** A term count as a float64. *)
Definition of_count (n : nat) : float :=
  of_uint63 (Uint63.of_Z (Z.of_nat n)).

(** The loops over a row accumulate from 0.0, left to right. *)
Definition dot (u v : vector) : float :=
  fold_left (fun s xy => (s + fst xy * snd xy)%float) (combine u v) 0%float.

(** [normalize(X, norm='l2')] on one row: a zero squared sum skips the row,
    otherwise every entry is divided by the square root of the sum. *)
Definition normalize (v : vector) : vector :=
  let s := dot v v in
  if (s =? 0)%float then v else map (fun x => (x / sqrt s)%float) v.

(** [np.log], of which only [log(1.0) = 0.0] is modelled: it is the one
    value needed when every term occurs in every document. *)
Definition log (x : float) : option float :=
  if (x =? 1)%float then Some 0%float else None.

(** [np.log((1 + n) / (1 + df)) + 1] *)
Definition idf_weight (docs : list (list string)) (t : string)
  : option float :=
  option_map (fun l => (l + 1)%float)
    (log (of_count (1 + List.length docs)
          / of_count (1 + document_frequency docs t))%float).

Fixpoint all_some {A : Type} (xs : list (option A)) : option (list A) :=
  match xs with
  | [] => Some []
  | None :: _ => None
  | Some x :: xs' => option_map (cons x) (all_some xs')
  end.

Definition tfidf_row (vocab : list string) (idf : vector)
  (tokens : list string) : vector :=
  normalize
    (map (fun tw => (of_count (count_occ string_dec tokens (fst tw))
                     * snd tw)%float)
         (combine vocab idf)).

(** [cosine_sim[0]] for a query after a build on the records of a readable
    file; [None] when the build fails or needs a logarithm other than
    [log(1.0)]. *)
Definition cosine_sim (nltk_english sklearn_english : list string)
  (rs : list csv_record) (user_storyline : string) : option (list float) :=
  let v := {| stop_words := sklearn_english; fitted := None |} in
  let docs := map (fun m => build_analyzer v
                              (clean_text nltk_english (storyline_text m)))
                  (usable_movies rs) in
  match build_vocabulary docs with
  | [] => None
  | vocab =>
      match all_some (map (idf_weight docs) vocab) with
      | None => None
      | Some idf =>
          let user_vector :=
            tfidf_row vocab idf
              (build_analyzer v
                 (preprocess_user_input nltk_english user_storyline)) in
          Some (map (fun doc => dot (normalize user_vector)
                                    (normalize (tfidf_row vocab idf doc)))
                    docs)
      end
  end.

(** The ranking steps of [get_recommendations] on float64 scores; [sorted]
    compares keys with [<]. *)
Definition top_indices (scores : list float) : list nat :=
  map fst
    (firstn RECOMMENDATION_COUNT
       (sorted_reverse (fun a b => (snd b <? snd a)%float)
                       (enumerate scores))).

(** What [get_recommendations] returns after that build. *)
Definition get_recommendations (nltk_english sklearn_english : list string)
  (rs : list csv_record) (user_storyline : string) : option (list movie) :=
  match cosine_sim nltk_english sklearn_english rs user_storyline with
  | None => None
  | Some scores =>
      all_some (map (nth_error (usable_movies rs)) (top_indices scores))
  end.

End F64.

(** ** Two storylines with the same proportions *)







(** ** A small page *)

(** A list item as the page shows it: rank and title, then the plot. *)
Definition item_dune : Scraper.list_item :=
  {| Scraper.title_text := Some "1. Dune: Part Two";
     Scraper.storyline_element_text :=
       Some "Paul Atreides unites with the Fremen. " |}.

(** A title without rank in front. *)
Definition item_tenet : Scraper.list_item :=
  {| Scraper.title_text := Some "Tenet";
     Scraper.storyline_element_text := Some "A secret agent bends time." |}.

(** A list item whose plot element is empty. *)
Definition item_untold : Scraper.list_item :=
  {| Scraper.title_text := Some "3. Untold";
     Scraper.storyline_element_text := Some "" |}.

Definition sample_page : list Scraper.list_item :=
  [item_dune; item_tenet; item_untold].

Definition movie_dune : movie :=
  {| Movie_Name := Some "Dune: Part Two";
     Storyline := Some "Paul Atreides unites with the Fremen." |}.

(** The globals after a build on what the scraper saved from the page. *)
Definition page_globals : globals :=
  snd (load_and_preprocess_data sample_nltk sample_sklearn
         (Scraper.main sample_page) initial_globals).

(** ** Lists, sorting and ranking *)

Lemma traverse_total {A B : Type} (f : A -> result B) (h : A -> B) xs :
  Forall (fun x => f x = Ok (h x)) xs -> traverse f xs = Ok (map h xs).
Proof.
  induction 1 as [|x xs Hx _ IH]; simpl; [reflexivity|].
  now rewrite Hx, IH.
Qed.

Lemma iloc_in_range df idxs :
  Forall (fun i => i < List.length (records df)) idxs ->
  iloc df idxs =
    Ok (map (fun i => nth i (records df) {| Movie_Name := None; Storyline := None |})
            idxs).
Proof.
  intros H; unfold iloc; apply traverse_total.
  eapply Forall_impl; [|exact H]; simpl; intros i Hi.
  destruct (nth_error (records df) i) eqn:E.
  - now rewrite (nth_error_nth _ _ _ E).
  - apply nth_error_None in E; lia.
Qed.

Lemma insert_desc_In {A} (gt : A -> A -> bool) x z l :
  In z (insert_desc gt x l) <-> z = x \/ In z l.
Proof.
  induction l as [|y l IH]; simpl.
  - intuition congruence.
  - destruct (gt y x); simpl; rewrite ?IH; intuition congruence.
Qed.

Lemma insert_desc_length {A} (gt : A -> A -> bool) x l :
  List.length (insert_desc gt x l) = S (List.length l).
Proof.
  induction l as [|y l IH]; simpl; [reflexivity|].
  destruct (gt y x); simpl; congruence.
Qed.

Lemma sorted_reverse_In {A} (gt : A -> A -> bool) z l :
  In z (sorted_reverse gt l) <-> In z l.
Proof.
  induction l as [|x l IH]; simpl; [tauto|].
  rewrite insert_desc_In, IH; intuition congruence.
Qed.

Lemma sorted_reverse_length {A} (gt : A -> A -> bool) l :
  List.length (sorted_reverse gt l) = List.length l.
Proof.
  induction l as [|x l IH]; simpl; [reflexivity|].
  now rewrite insert_desc_length, IH.
Qed.

Lemma Rgtb_true x y : Rgtb x y = true <-> (y < x)%R.
Proof. unfold Rgtb; destruct (Rlt_dec y x); split; auto; discriminate. Qed.

Lemma Rgtb_false x y : Rgtb x y = false <-> (x <= y)%R.
Proof.
  unfold Rgtb; destruct (Rlt_dec y x); split; intros; try discriminate; lra.
Qed.

Lemma insert_desc_sorted (x : nat * R) l :
  StronglySorted prec l ->
  Forall (fun y => fst x < fst y) l ->
  StronglySorted prec (insert_desc (fun a b => Rgtb (snd a) (snd b)) x l).
Proof.
  induction 1 as [|y l Hs IH Hy]; intros Hx; simpl.
  - repeat constructor.
  - inversion Hx as [|? ? Hxy Hxl]; subst.
    destruct (Rgtb (snd y) (snd x)) eqn:E.
    + apply Rgtb_true in E. constructor; [now apply IH|].
      apply Forall_forall; intros z Hz. apply insert_desc_In in Hz.
      destruct Hz as [->|Hz]; [now left|].
      rewrite Forall_forall in Hy; now apply Hy.
    + apply Rgtb_false in E. constructor; [now constructor|].
      constructor.
      * destruct (Rle_lt_or_eq_dec _ _ E) as [Hlt|Heq]; [now left|].
        right; split; [now symmetry|assumption].
      * apply Forall_forall; intros z Hz.
        rewrite Forall_forall in Hy, Hxl.
        specialize (Hy z Hz); specialize (Hxl z Hz).
        destruct (Rlt_dec (snd z) (snd x)) as [Hlt|Hnlt]; [now left|].
        right; split; [|assumption].
        destruct Hy as [Hy|[Hy _]]; lra.
Qed.

Lemma sorted_reverse_sorted (l : list (nat * R)) :
  StronglySorted (fun a b => fst a < fst b) l ->
  StronglySorted prec (sorted_reverse (fun a b => Rgtb (snd a) (snd b)) l).
Proof.
  induction 1 as [|x l _ IH Hx]; simpl; [constructor|].
  apply insert_desc_sorted; [exact IH|].
  apply Forall_forall; intros z Hz. apply sorted_reverse_In in Hz.
  rewrite Forall_forall in Hx; now apply Hx.
Qed.

Lemma combine_seq_increasing {A : Type} (xs : list A) s :
  StronglySorted (fun a b : nat * A => fst a < fst b)
                 (combine (seq s (List.length xs)) xs).
Proof.
  revert s; induction xs as [|x xs IH]; intros s; simpl; constructor.
  - apply IH.
  - apply Forall_forall; intros [i y] Hin; simpl.
    apply in_combine_l in Hin. apply in_seq in Hin. lia.
Qed.

Lemma combine_seq_nth_error {A : Type} (xs : list A) s i x :
  In (i, x) (combine (seq s (List.length xs)) xs) <->
  s <= i /\ nth_error xs (i - s) = Some x.
Proof.
  revert s; induction xs as [|y xs IH]; intros s; simpl.
  - split; [tauto|]. intros [_ H]. destruct (i - s); discriminate.
  - rewrite IH. split.
    + intros [H|[H1 H2]].
      * inversion H; subst. rewrite Nat.sub_diag. simpl. auto.
      * split; [lia|]. replace (i - s) with (S (i - S s)) by lia. exact H2.
    + intros [H1 H2]. destruct (i - s) as [|k] eqn:E.
      * left. simpl in H2. inversion H2; subst. f_equal. lia.
      * right. split; [lia|]. replace (i - S s) with k by lia. exact H2.
Qed.

Lemma enumerate_In {A : Type} (xs : list A) i x :
  In (i, x) (enumerate xs) <-> nth_error xs i = Some x.
Proof.
  unfold enumerate. rewrite combine_seq_nth_error, Nat.sub_0_r.
  split; [tauto|]. split; [lia|assumption].
Qed.

Lemma enumerate_length {A : Type} (xs : list A) :
  List.length (enumerate xs) = List.length xs.
Proof.
  unfold enumerate. rewrite length_combine, length_seq. apply Nat.min_id.
Qed.

Lemma firstn_In {A : Type} n (l : list A) x : In x (firstn n l) -> In x l.
Proof.
  intros H. rewrite <- (firstn_skipn n l). apply in_or_app. now left.
Qed.

Lemma skipn_In {A : Type} n (l : list A) x : In x (skipn n l) -> In x l.
Proof.
  intros H. rewrite <- (firstn_skipn n l). apply in_or_app. now right.
Qed.

Lemma StronglySorted_firstn {A : Type} (R : A -> A -> Prop) n l :
  StronglySorted R l -> StronglySorted R (firstn n l).
Proof.
  revert n; induction l as [|x l IH]; intros [|n] H; simpl; try constructor.
  - apply IH. now inversion H.
  - inversion H; subst. apply Forall_forall; intros z Hz.
    apply firstn_In in Hz. rewrite Forall_forall in H3. now apply H3.
Qed.

Lemma StronglySorted_split {A : Type} (R : A -> A -> Prop) n l :
  StronglySorted R l ->
  forall a b, In a (firstn n l) -> In b (skipn n l) -> R a b.
Proof.
  revert n; induction l as [|x l IH]; intros [|n] H a b Ha Hb; simpl in *;
    try contradiction.
  inversion H; subst. destruct Ha as [<-|Ha].
  - rewrite Forall_forall in H3. apply H3. eapply skipn_In; eauto.
  - eapply IH; eauto.
Qed.

Lemma StronglySorted_map {A B : Type} (f : A -> B)
  (R : A -> A -> Prop) (S : B -> B -> Prop) l :
  (forall a b, In a l -> In b l -> R a b -> S (f a) (f b)) ->
  StronglySorted R l -> StronglySorted S (map f l).
Proof.
  intros HRS H; induction H as [|x l Hs IH Hx]; simpl; constructor.
  - apply IH. intros a b Ha Hb. apply HRS; now right.
  - apply Forall_forall; intros z Hz. apply in_map_iff in Hz.
    destruct Hz as [a [<- Ha]]. rewrite Forall_forall in Hx.
    apply HRS; [now left|now right|now apply Hx].
Qed.

Lemma similarity_scores_In scores i x :
  In (i, x) (similarity_scores scores) <-> nth_error scores i = Some x.
Proof. unfold similarity_scores. now rewrite sorted_reverse_In, enumerate_In. Qed.

Lemma similarity_scores_sorted scores :
  StronglySorted prec (similarity_scores scores).
Proof. apply sorted_reverse_sorted, combine_seq_increasing. Qed.

Lemma prec_outranks scores a b :
  In a (similarity_scores scores) -> In b (similarity_scores scores) ->
  prec a b -> outranks scores (fst a) (fst b).
Proof.
  destruct a as [i x], b as [j y]; intros Ha Hb H.
  apply similarity_scores_In in Ha, Hb.
  exists x, y; auto.
Qed.

(** The indices the engine keeps: as many as asked for when the corpus has
    them, each outranking all that follow and all that were left out. *)
Lemma top_indices_spec scores :
  List.length (top_indices scores)
    = Nat.min RECOMMENDATION_COUNT (List.length scores) /\
  StronglySorted (outranks scores) (top_indices scores) /\
  Forall (fun i => i < List.length scores) (top_indices scores) /\
  (forall i j, In i (top_indices scores) -> j < List.length scores ->
               ~ In j (top_indices scores) -> outranks scores i j).
Proof.
  unfold top_indices. repeat split.
  - rewrite length_map, length_firstn. unfold similarity_scores.
    now rewrite sorted_reverse_length, enumerate_length.
  - apply StronglySorted_map with (R := prec).
    + intros a b Ha Hb. apply prec_outranks; eapply firstn_In; eauto.
    + apply StronglySorted_firstn, similarity_scores_sorted.
  - apply Forall_forall; intros i Hi. apply in_map_iff in Hi.
    destruct Hi as [[i' x] [<- Hi]]. apply firstn_In in Hi.
    apply similarity_scores_In in Hi. simpl.
    apply nth_error_Some. congruence.
  - intros i j Hi Hj Hnj. apply in_map_iff in Hi.
    destruct Hi as [a [<- Ha]].
    destruct (nth_error scores j) as [y|] eqn:E;
      [|apply nth_error_None in E; lia].
    assert (Hb : In (j, y) (similarity_scores scores))
      by now apply similarity_scores_In.
    rewrite <- (firstn_skipn RECOMMENDATION_COUNT) in Hb.
    apply in_app_or in Hb. destruct Hb as [Hb|Hb].
    + exfalso. apply Hnj. apply in_map_iff. now exists (j, y).
    + change j with (fst (j, y)). apply prec_outranks.
      * eapply firstn_In; eauto.
      * eapply skipn_In; eauto.
      * eapply StronglySorted_split; eauto. apply similarity_scores_sorted.
Qed.

(** ** Real vectors *)

Lemma dot_self_nonneg v : (0 <= Vec.dot v v)%R.
Proof. induction v as [|x v IH]; simpl; [lra|nra]. Qed.

Lemma dot_self_zero v : Vec.dot v v = 0%R -> Forall (fun x => x = 0%R) v.
Proof.
  induction v as [|x v IH]; simpl; intros H; constructor.
  - pose proof (dot_self_nonneg v). nra.
  - apply IH. pose proof (dot_self_nonneg v). nra.
Qed.

Lemma dot_zero_l u v : Forall (fun x => x = 0%R) u -> Vec.dot u v = 0%R.
Proof.
  intros H; revert v; induction H as [|x u Hx _ IH]; intros [|y v]; simpl;
    try reflexivity.
  rewrite IH, Hx. lra.
Qed.


Lemma normalize_length v : List.length (Vec.normalize v) = List.length v.
Proof.
  unfold Vec.normalize. destruct (Req_dec_T _ _); [reflexivity|].
  apply length_map.
Qed.

Lemma normalize_zero v :
  Vec.dot v v = 0%R -> Forall (fun x => x = 0%R) (Vec.normalize v).
Proof.
  intros H. unfold Vec.normalize.
  destruct (Req_dec_T _ _); [now apply dot_self_zero|contradiction].
Qed.



(** ** The vectorizer *)

Lemma tfidf_row_length vocab idf tokens :
  List.length idf = List.length vocab ->
  List.length (tfidf_row vocab idf tokens) = List.length vocab.
Proof.
  intros H. unfold tfidf_row.
  rewrite normalize_length, length_map, length_combine, H. apply Nat.min_id.
Qed.

Lemma fit_transform_Ok v docs v' m :
  fit_transform v docs = Ok (v', m) ->
  exists vocab idf,
    vocab = build_vocabulary (map (build_analyzer v) docs) /\
    vocab <> [] /\
    idf = map (idf_weight (map (build_analyzer v) docs)) vocab /\
    v' = {| stop_words := stop_words v; fitted := Some (vocab, idf) |} /\
    m = {| n_features := List.length vocab;
           rows := map (tfidf_row vocab idf) (map (build_analyzer v) docs) |}.
Proof.
  unfold fit_transform. intros H.
  destruct (build_vocabulary (map (build_analyzer v) docs)) as [|t vocab] eqn:E;
    [discriminate|].
  inversion H; subst; clear H.
  exists (t :: vocab), (map (idf_weight (map (build_analyzer v) docs)) (t :: vocab)).
  repeat split; congruence.
Qed.

(** ** Building the index *)

Section EngineFacts.

Variable nltk_english : list string.
Variable sklearn_english : list string.

Local Abbreviation clean := (clean_text nltk_english).
Local Abbreviation load :=
  (load_and_preprocess_data nltk_english sklearn_english).
Local Abbreviation recommend := (get_recommendations nltk_english).
Local Abbreviation fresh_vectorizer :=
  {| stop_words := sklearn_english; fitted := None |}.

Lemma apply_clean_text_dropna df :
  apply_clean_text nltk_english (dropna_Storyline df) =
  Ok (map (fun m => clean (storyline_text m)) (records (dropna_Storyline df))).
Proof.
  unfold apply_clean_text. apply traverse_total.
  apply Forall_forall; intros m Hm. simpl in Hm.
  apply filter_In in Hm. destruct Hm as [_ Hm].
  unfold storyline_text. destruct (Storyline m); [reflexivity|discriminate].
Qed.

(** What a build on a readable file does to the globals. *)
Lemma load_Records rs g0 :
  load (Records rs) g0 =
  let cleaned := map (fun m => clean (storyline_text m)) (usable_movies rs) in
  let df := {| records := usable_movies rs;
               Cleaned_Storyline := Some cleaned |} in
  match fit_transform fresh_vectorizer cleaned with
  | Ok (v, m) =>
      (true, {| movies_df := Some df; tfidf_vectorizer := Some v;
                tfidf_matrix := Some m |})
  | Raise _ =>
      (false, {| movies_df := Some df;
                 tfidf_vectorizer := Some fresh_vectorizer;
                 tfidf_matrix := tfidf_matrix g0 |})
  end.
Proof.
  unfold load_and_preprocess_data, try_block, seq_stmt, eval,
    assign_movies_df, assign_tfidf_vectorizer, assign_tfidf_matrix.
  cbn [read_csv]. rewrite apply_clean_text_dropna. cbn -[fit_transform].
  fold (usable_movies rs).
  destruct (fit_transform _ _) as [[v m]|e]; cbn; [reflexivity|].
  destruct e; reflexivity.
Qed.

Lemma load_NoSuchFile g0 : load NoSuchFile g0 = (false, g0).
Proof. reflexivity. Qed.

Lemma load_Unreadable g0 : load Unreadable g0 = (false, g0).
Proof. reflexivity. Qed.

(** A successful build publishes all three globals together. *)
Lemma load_true_inv file g0 g :
  load file g0 = (true, g) ->
  exists rs vocab idf,
    let analyzed :=
      map (fun m => build_analyzer fresh_vectorizer (clean (storyline_text m)))
          (usable_movies rs) in
    file = Records rs /\
    vocab = build_vocabulary analyzed /\ vocab <> [] /\
    idf = map (idf_weight analyzed) vocab /\
    g = {| movies_df :=
             Some {| records := usable_movies rs;
                     Cleaned_Storyline :=
                       Some (map (fun m => clean (storyline_text m))
                                 (usable_movies rs)) |};
           tfidf_vectorizer :=
             Some {| stop_words := sklearn_english;
                     fitted := Some (vocab, idf) |};
           tfidf_matrix :=
             Some {| n_features := List.length vocab;
                     rows := map (tfidf_row vocab idf) analyzed |} |}.
Proof.
  destruct file as [| |rs]; try (cbn; discriminate).
  rewrite load_Records. cbv zeta.
  destruct (fit_transform _ _) as [[v m]|e] eqn:E; [|discriminate].
  intros H; inversion H; subst; clear H.
  apply fit_transform_Ok in E.
  destruct E as (vocab & idf & Hv & Hne & Hi & -> & ->).
  rewrite map_map in Hv, Hi. cbn [stop_words] in *.
  exists rs, vocab, idf. cbv zeta.
  split; [reflexivity|]. split; [exact Hv|]. split; [exact Hne|].
  split; [exact Hi|]. now rewrite !map_map.
Qed.

(** ** Querying a built index *)

(** After a successful build every query is answered: the query is vectorised
    over the fitted vocabulary, scored against one row per indexed movie, and
    the rows at the top indices are returned. *)
Lemma query_built file g0 g q :
  load file g0 = (true, g) ->
  exists df v m user_vector cosine_sim,
    movies_df g = Some df /\ tfidf_vectorizer g = Some v /\
    tfidf_matrix g = Some m /\
    transform v (preprocess_user_input nltk_english q) = Ok user_vector /\
    cosine_similarity user_vector m = Ok cosine_sim /\
    cosine_sim = map (fun y => Vec.dot (Vec.normalize user_vector)
                                       (Vec.normalize y)) (rows m) /\
    List.length cosine_sim = List.length (records df) /\
    records df <> [] /\
    recommend g q = iloc df (top_indices cosine_sim).
Proof.
  intros H. apply load_true_inv in H.
  destruct H as (rs & vocab & idf & Hf & Hv & Hne & Hi & Hg). cbv zeta in *.
  subst g. cbn [movies_df tfidf_vectorizer tfidf_matrix].
  set (analyzed := map _ (usable_movies rs)) in *.
  assert (Hrows : usable_movies rs <> []).
  { intros E. apply Hne. rewrite Hv. unfold analyzed. now rewrite E. }
  assert (Hlen : List.length idf = List.length vocab)
    by (rewrite Hi; apply length_map).
  eexists _, _, _, _, _.
  split; [reflexivity|]. split; [reflexivity|]. split; [reflexivity|].
  split; [reflexivity|].
  assert (Hcs : forall u, List.length u = List.length vocab ->
      cosine_similarity u {| n_features := List.length vocab;
                             rows := map (tfidf_row vocab idf) analyzed |} =
      Ok (map (fun y => Vec.dot (Vec.normalize u) (Vec.normalize y))
              (map (tfidf_row vocab idf) analyzed))).
  { intros u Hu. unfold cosine_similarity. cbn [n_features rows].
    rewrite Hu, Nat.eqb_refl. cbn [negb].
    unfold analyzed. destruct (usable_movies rs); [contradiction|reflexivity]. }
  split; [apply Hcs, tfidf_row_length, Hlen|].
  split; [reflexivity|].
  split; [unfold analyzed; now rewrite !length_map|].
  split; [exact Hrows|].
  unfold get_recommendations. cbn [movies_df tfidf_vectorizer tfidf_matrix].
  cbn [transform fitted bind].
  rewrite Hcs by apply tfidf_row_length, Hlen. reflexivity.
Qed.

(** ** Words and tokens *)

Lemma fields_all_sep sep text :
  PyStr.all_chars sep text = true -> PyStr.fields sep text = [].
Proof.
  induction text as [|c rest IH]; simpl; [reflexivity|].
  intros H. apply andb_prop in H. destruct H as [Hc Hr].
  rewrite Hc. now apply IH.
Qed.

(** A run is never empty, holds no separator, and is made of characters of
    the text. *)
Lemma fields_runs sep P text :
  PyStr.all_chars P text = true ->
  Forall (fun w => w <> EmptyString /\
                   PyStr.all_chars (fun c => negb (sep c)) w = true /\
                   PyStr.all_chars P w = true)
         (PyStr.fields sep text).
Proof.
  induction text as [|c rest IH]; simpl; [constructor|].
  intros H. apply andb_prop in H. destruct H as [Hc Hr].
  specialize (IH Hr).
  destruct (sep c) eqn:Ec; [exact IH|].
  destruct rest as [|c' rest'].
  - constructor; [|constructor]. simpl. rewrite Ec, Hc. repeat split. discriminate.
  - destruct (sep c') eqn:Ec'.
    + constructor; [|exact IH]. simpl. rewrite Ec, Hc. repeat split. discriminate.
    + destruct (PyStr.fields sep (String c' rest')) as [|w ws]; simpl.
      * constructor; [|constructor]. simpl. rewrite Ec, Hc. repeat split. discriminate.
      * inversion IH as [|? ? (Hw1 & Hw2 & Hw3) Hws]; subst.
        constructor; [|exact Hws]. simpl. rewrite Ec, Hc, Hw2, Hw3.
        repeat split. discriminate.
Qed.

Lemma fields_two_chars sep a b rest :
  sep a = false -> sep b = false ->
  PyStr.fields sep (String a (String b rest))
  = PyStr.push_char a (PyStr.fields sep (String b rest)).
Proof. intros Ha Hb. simpl. rewrite Ha, Hb. reflexivity. Qed.

Lemma fields_word sep w :
  w <> EmptyString -> PyStr.all_chars (fun c => negb (sep c)) w = true ->
  PyStr.fields sep w = [w].
Proof.
  induction w as [|a w IH]; [congruence|]. intros _ H. simpl in H.
  apply andb_prop in H. destruct H as [Ha Hw]. apply negb_true_iff in Ha.
  simpl. rewrite Ha. destruct w as [|b w']; [reflexivity|].
  assert (Hb : sep b = false).
  { simpl in Hw. apply andb_prop in Hw. now apply negb_true_iff. }
  rewrite Hb. rewrite IH; [reflexivity|discriminate|exact Hw].
Qed.

Lemma fields_word_then_sep sep w c rest :
  w <> EmptyString -> PyStr.all_chars (fun c => negb (sep c)) w = true ->
  sep c = true ->
  PyStr.fields sep (String.append w (String c rest)) = w :: PyStr.fields sep rest.
Proof.
  intros Hne Hw Hc. induction w as [|a w IH]; [congruence|]. simpl in Hw.
  apply andb_prop in Hw. destruct Hw as [Ha Hw]. apply negb_true_iff in Ha.
  destruct w as [|b w'].
  - simpl. now rewrite Ha, Hc.
  - assert (Hb : sep b = false).
    { simpl in Hw. apply andb_prop in Hw. now apply negb_true_iff. }
    specialize (IH ltac:(discriminate) Hw).
    change (String.append (String a (String b w')) (String c rest))
      with (String a (String b (String.append w' (String c rest)))).
    rewrite fields_two_chars by assumption.
    change (String b (String.append w' (String c rest)))
      with (String.append (String b w') (String c rest)).
    now rewrite IH.
Qed.

(** Splitting what was joined with single separators gives the words back. *)
Lemma fields_join sep ws :
  sep " "%char = true ->
  Forall (fun w => w <> EmptyString /\
                   PyStr.all_chars (fun c => negb (sep c)) w = true) ws ->
  PyStr.fields sep (PyStr.join ws) = ws.
Proof.
  intros Hsp H. induction H as [|w ws [Hne Hw] Hws IH]; [reflexivity|].
  destruct ws as [|w' ws'].
  - simpl. now apply fields_word.
  - change (PyStr.join (w :: w' :: ws'))
      with (String.append w (String " " (PyStr.join (w' :: ws')))).
    rewrite fields_word_then_sep by assumption. now rewrite IH.
Qed.

(** ** Characters *)

Ltac ascii_cases c :=
  destruct c as [[] [] [] [] [] [] [] []]; vm_compute; try reflexivity;
  try discriminate; try (intros; discriminate); try (intros; reflexivity).

Lemma kept_lower_char c : PyStr.kept c = true -> PyStr.lower_char c = c.
Proof. ascii_cases c. Qed.

Lemma kept_word_char c :
  PyStr.kept c = true -> PyStr.isspace c = false -> PyStr.is_word_char c = true.
Proof. ascii_cases c. Qed.

Lemma isspace_kept c : PyStr.isspace c = true -> PyStr.kept c = true.
Proof. ascii_cases c. Qed.

Lemma all_chars_impl (P Q : ascii -> bool) text :
  (forall c, P c = true -> Q c = true) ->
  PyStr.all_chars P text = true -> PyStr.all_chars Q text = true.
Proof.
  intros HPQ. induction text as [|c rest IH]; simpl; [reflexivity|].
  intros H. apply andb_prop in H. destruct H as [Hc Hr].
  now rewrite (HPQ c Hc), IH.
Qed.

Lemma all_chars_and (P Q : ascii -> bool) text :
  PyStr.all_chars P text = true -> PyStr.all_chars Q text = true ->
  PyStr.all_chars (fun c => P c && Q c) text = true.
Proof.
  induction text as [|c rest IH]; simpl; [reflexivity|].
  intros H1 H2. apply andb_prop in H1, H2.
  destruct H1 as [-> H1], H2 as [-> H2]. now rewrite IH.
Qed.

Lemma all_chars_append P s t :
  PyStr.all_chars P (String.append s t)
  = PyStr.all_chars P s && PyStr.all_chars P t.
Proof.
  induction s as [|c s IH]; simpl; [reflexivity|].
  now rewrite IH, andb_assoc.
Qed.

Lemma lower_kept text :
  PyStr.all_chars PyStr.kept text = true -> PyStr.lower text = text.
Proof.
  induction text as [|c rest IH]; simpl; [reflexivity|].
  intros H. apply andb_prop in H. destruct H as [Hc Hr].
  now rewrite (kept_lower_char c Hc), IH.
Qed.

Lemma strip_special_kept text :
  PyStr.all_chars PyStr.kept (PyStr.strip_special text) = true.
Proof.
  induction text as [|c rest IH]; simpl; [reflexivity|].
  destruct (PyStr.kept c) eqn:E; simpl; [now rewrite E|exact IH].
Qed.

Lemma strip_special_id text :
  PyStr.all_chars PyStr.kept text = true -> PyStr.strip_special text = text.
Proof.
  induction text as [|c rest IH]; simpl; [reflexivity|].
  intros H. apply andb_prop in H. destruct H as [Hc Hr].
  now rewrite Hc, IH.
Qed.

Lemma join_kept ws :
  Forall (fun w => PyStr.all_chars PyStr.kept w = true) ws ->
  PyStr.all_chars PyStr.kept (PyStr.join ws) = true.
Proof.
  induction 1 as [|w ws Hw Hws IH]; [reflexivity|].
  destruct ws as [|w' ws']; [exact Hw|].
  change (PyStr.join (w :: w' :: ws'))
    with (String.append w (String " " (PyStr.join (w' :: ws')))).
  rewrite all_chars_append, Hw. simpl. simpl in IH. now rewrite IH.
Qed.

(** The words of a text are non-empty runs of [[a-z0-9]]. *)
Lemma raw_words_runs text :
  Forall (fun w => w <> EmptyString /\
                   PyStr.all_chars (fun c => negb (PyStr.isspace c)) w = true /\
                   PyStr.all_chars PyStr.kept w = true)
         (raw_words text).
Proof. apply fields_runs, strip_special_kept. Qed.

Lemma filter_filter {A : Type} (f g : A -> bool) l :
  filter f (filter g l) = filter (fun x => g x && f x) l.
Proof.
  induction l as [|x l IH]; simpl; [reflexivity|].
  destruct (g x); simpl; [destruct (f x)|]; now rewrite IH.
Qed.

(** The tokens the vectorizer finds in a text that was joined from words. *)
Lemma findall_tokens_join ws :
  Forall (fun w => w <> EmptyString /\
                   PyStr.all_chars (fun c => negb (PyStr.isspace c)) w = true /\
                   PyStr.all_chars PyStr.kept w = true) ws ->
  PyStr.findall_tokens (PyStr.lower (PyStr.join ws))
  = filter (fun w => 2 <=? String.length w) ws.
Proof.
  intros H. rewrite lower_kept.
  - unfold PyStr.findall_tokens. rewrite fields_join; [reflexivity|reflexivity|].
    eapply Forall_impl; [|exact H]. intros w (Hne & Hsp & Hk). split; [exact Hne|].
    eapply all_chars_impl; [|exact (all_chars_and _ _ _ Hk Hsp)].
    intros c Hc. apply andb_prop in Hc. destruct Hc as [Hc1 Hc2].
    apply negb_true_iff in Hc2. now rewrite (kept_word_char c Hc1 Hc2).
  - apply join_kept. eapply Forall_impl; [|exact H]. now intros w (_ & _ & Hk).
Qed.

(** Which words of a text reach the term vector. *)
Lemma analyzer_after_cleaning v text :
  stop_words v = sklearn_english ->
  build_analyzer v (clean text)
  = filter (survives nltk_english sklearn_english) (raw_words text).
Proof.
  intros Hv. unfold build_analyzer, clean_text. fold (raw_words text).
  rewrite findall_tokens_join.
  - rewrite Hv, !filter_filter. apply filter_ext. intros w. unfold survives.
    destruct (PyStr.mem w nltk_english), (PyStr.mem w sklearn_english),
      (2 <=? String.length w); reflexivity.
  - pose proof (raw_words_runs text) as H. rewrite Forall_forall in H.
    apply Forall_forall. intros w Hw. apply filter_In in Hw. now apply H.
Qed.

(** ** Queries without any term of the vocabulary *)

Lemma blank_preprocess q :
  blank q = true -> preprocess_user_input nltk_english q = EmptyString.
Proof.
  intros H. unfold blank in H. unfold preprocess_user_input.
  assert (Hk : PyStr.all_chars PyStr.kept q = true)
    by (eapply all_chars_impl; [apply isspace_kept|exact H]).
  rewrite (lower_kept q Hk), (strip_special_id q Hk).
  unfold PyStr.split. now rewrite (fields_all_sep _ _ H).
Qed.

Lemma tfidf_row_no_term vocab idf tokens :
  (forall t, In t vocab -> ~ In t tokens) ->
  Forall (fun x => x = 0%R) (tfidf_row vocab idf tokens).
Proof.
  intros H. unfold tfidf_row.
  assert (Hz : Forall (fun x => x = 0%R)
                 (map (fun tw : string * R =>
                         (INR (count_occ string_dec tokens (fst tw)) * snd tw)%R)
                      (combine vocab idf))).
  { apply Forall_forall. intros x Hx. apply in_map_iff in Hx.
    destruct Hx as [[t w] [<- Hin]]. apply in_combine_l in Hin. simpl.
    rewrite (proj1 (count_occ_not_In string_dec tokens t) (H t Hin)).
    simpl. lra. }
  apply normalize_zero. now apply dot_zero_l.
Qed.

Lemma insert_desc_tie {A : Type} (gt : A -> A -> bool) x l :
  Forall (fun y => gt y x = false) l -> insert_desc gt x l = x :: l.
Proof. intros H. destruct H as [|y l Hy _]; simpl; [reflexivity|now rewrite Hy]. Qed.

Lemma sorted_reverse_all_tied {A : Type} (gt : A -> A -> bool) l :
  (forall a b, In a l -> In b l -> gt a b = false) -> sorted_reverse gt l = l.
Proof.
  induction l as [|x l IH]; intros H; simpl; [reflexivity|].
  rewrite IH by (intros a b Ha Hb; apply H; now right).
  apply insert_desc_tie. apply Forall_forall. intros y Hy.
  apply H; [now right|now left].
Qed.

Lemma map_fst_enumerate {A : Type} (xs : list A) :
  map fst (enumerate xs) = seq 0 (List.length xs).
Proof.
  unfold enumerate. generalize 0 as s.
  induction xs as [|x xs IH]; intros s; simpl; [reflexivity|]. now rewrite IH.
Qed.

Lemma firstn_seq n s len : firstn n (seq s len) = seq s (Nat.min n len).
Proof.
  revert s len; induction n as [|n IH]; intros s [|len]; simpl;
    try reflexivity.
  now rewrite IH.
Qed.

Lemma top_indices_all_zero scores :
  Forall (fun s => s = 0%R) scores ->
  top_indices scores
  = seq 0 (Nat.min RECOMMENDATION_COUNT (List.length scores)).
Proof.
  intros H. unfold top_indices, similarity_scores.
  rewrite sorted_reverse_all_tied.
  - rewrite <- firstn_map, map_fst_enumerate. apply firstn_seq.
  - intros [i x] [j y] Ha Hb. apply enumerate_In in Ha, Hb.
    apply nth_error_In in Ha, Hb. rewrite Forall_forall in H.
    simpl. rewrite (H x Ha), (H y Hb). apply Rgtb_false. lra.
Qed.

Lemma map_nth_seq {A : Type} (l : list A) d k :
  k <= List.length l -> map (fun i => nth i l d) (seq 0 k) = firstn k l.
Proof.
  revert k; induction l as [|x l IH]; intros [|k] Hk; simpl in *;
    try reflexivity; try lia.
  f_equal. rewrite <- seq_shift, map_map. apply IH. lia.
Qed.

(** With every score zero, the engine returns the first rows of the table. *)
Lemma iloc_first_rows df scores :
  List.length scores = List.length (records df) ->
  Forall (fun s => s = 0%R) scores ->
  iloc df (top_indices scores) = Ok (firstn RECOMMENDATION_COUNT (records df)).
Proof.
  intros Hlen Hz. rewrite (top_indices_all_zero _ Hz), Hlen.
  rewrite iloc_in_range.
  - rewrite map_nth_seq by apply Nat.le_min_r.
    f_equal. apply Nat.min_case_strong; intros Hm; [reflexivity|].
    now rewrite !firstn_all2.
  - apply Forall_forall. intros i Hi. apply in_seq in Hi.
    pose proof (Nat.le_min_r RECOMMENDATION_COUNT (List.length (records df))).
    lia.
Qed.

(** A blank query scores zero everywhere and gets the first rows back. *)
Lemma recommend_blank file g0 g q :
  load file g0 = (true, g) -> blank q = true ->
  exists df cosine_sim,
    movies_df g = Some df /\
    cosine_sim_of nltk_english g q = Some (Ok cosine_sim) /\
    Forall (fun s => s = 0%R) cosine_sim /\
    List.length cosine_sim = List.length (records df) /\
    records df <> [] /\
    recommend g q = Ok (firstn RECOMMENDATION_COUNT (records df)).
Proof.
  intros Hb Hq. pose proof (load_true_inv _ _ _ Hb) as Hshape.
  destruct (query_built _ _ _ q Hb)
    as (df & v & m & u & cs & Hdf & Hv & Hm & Hu & Hcs & Hmap & Hlen & Hne & Hrec).
  assert (Hzero : Forall (fun x => x = 0%R) u).
  { rewrite (blank_preprocess q Hq) in Hu. unfold transform in Hu.
    destruct (fitted v) as [[vocab idf]|]; [|discriminate].
    inversion Hu; subst u. apply tfidf_row_no_term.
    intros t _. unfold build_analyzer. simpl. tauto. }
  assert (Hcz : Forall (fun s => s = 0%R) cs).
  { rewrite Hmap. apply Forall_forall. intros s Hs. apply in_map_iff in Hs.
    destruct Hs as [y [<- _]]. apply dot_zero_l, normalize_zero.
    now apply dot_zero_l. }
  exists df, cs. split; [exact Hdf|].
  split; [unfold cosine_sim_of; rewrite Hdf, Hv, Hm, Hu; simpl; now rewrite Hcs|].
  split; [exact Hcz|]. split; [exact Hlen|]. split; [exact Hne|].
  rewrite Hrec. now apply iloc_first_rows.
Qed.

(** ** Facts about builds *)

Lemma load_false_matrix file g0 g :
  load file g0 = (false, g) -> tfidf_matrix g = tfidf_matrix g0.
Proof.
  destruct file as [| |rs].
  - rewrite load_NoSuchFile. now inversion 1.
  - rewrite load_Unreadable. now inversion 1.
  - rewrite load_Records. cbv zeta.
    destruct (fit_transform _ _) as [[v m]|e]; [discriminate|].
    now inversion 1.
Qed.

Lemma failed_builds_matrix files g g' :
  failed_builds nltk_english sklearn_english files g = Some g' ->
  tfidf_matrix g' = tfidf_matrix g.
Proof.
  revert g; induction files as [|file more IH]; intros g; simpl.
  - now inversion 1.
  - destruct (load file g) as [[|] g1] eqn:E; [discriminate|].
    intros H. rewrite (IH _ H). now apply (load_false_matrix file).
Qed.

Lemma recommend_without_matrix g q :
  tfidf_matrix g = None -> recommend g q = Ok [].
Proof.
  intros H. unfold get_recommendations. rewrite H.
  destruct (movies_df g), (tfidf_vectorizer g); reflexivity.
Qed.

Lemma load_no_usable rs g0 :
  usable_movies rs = [] -> fst (load (Records rs) g0) = false.
Proof. intros H. rewrite load_Records, H. reflexivity. Qed.

Lemma no_storyline_isna r :
  no_storyline r = true -> notna (parse_field (storyline_field r)) = false.
Proof.
  unfold no_storyline, parse_field. destruct (storyline_field r) as [text|];
    [|reflexivity].
  intros H. apply String.eqb_eq in H. now subst text.
Qed.

Lemma usable_movies_filter rs :
  usable_movies (filter (fun r => negb (no_storyline r)) rs) = usable_movies rs.
Proof.
  unfold usable_movies. induction rs as [|r rs IH]; simpl; [reflexivity|].
  destruct (no_storyline r) eqn:E; simpl.
  - now rewrite (no_storyline_isna r E).
  - now rewrite IH.
Qed.

Lemma traverse_In {A B : Type} (f : A -> result B) xs ys y :
  traverse f xs = Ok ys -> In y ys -> exists x, In x xs /\ f x = Ok y.
Proof.
  revert ys; induction xs as [|x xs IH]; simpl; intros ys H Hy.
  - inversion H; subst. contradiction.
  - destruct (f x) as [z|e] eqn:Ez; simpl in H; [|discriminate].
    destruct (traverse f xs) as [zs|e]; simpl in H; [|discriminate].
    inversion H; subst. destruct Hy as [<-|Hy].
    + exists x. auto.
    + destruct (IH zs eq_refl Hy) as [x' [Hx' Hf]]. exists x'. auto.
Qed.

Lemma iloc_In df idxs recs mv :
  iloc df idxs = Ok recs -> In mv recs -> In mv (records df).
Proof.
  intros H Hmv. destruct (traverse_In _ _ _ _ H Hmv) as [i [_ Hi]].
  destruct (nth_error (records df) i) eqn:E; [|discriminate].
  inversion Hi; subst. eapply nth_error_In; eauto.
Qed.

Lemma usable_movies_In rs mv :
  In mv (usable_movies rs) ->
  exists r text, In r rs /\ no_storyline r = false /\ mv = parse_record r /\
                 Storyline mv = Some text /\ text <> EmptyString.
Proof.
  unfold usable_movies. intros H. apply filter_In in H. destruct H as [H Hn].
  apply in_map_iff in H. destruct H as [r [<- Hr]].
  remember (parse_record r) as mv eqn:Hmv.
  assert (Hs : Storyline mv = parse_field (storyline_field r))
    by (subst mv; reflexivity).
  rewrite Hs in Hn. unfold parse_field in Hs, Hn.
  destruct (storyline_field r) as [text|] eqn:Es; [|discriminate].
  destruct (PyStr.mem text na_values) eqn:E; [discriminate|].
  assert (Hne : text <> EmptyString) by (intros ->; discriminate).
  exists r, text. unfold no_storyline. rewrite Es.
  split; [exact Hr|]. split.
  { destruct (String.eqb text EmptyString) eqn:E2; [|reflexivity].
    apply String.eqb_eq in E2. contradiction. }
  split; [exact Hmv|]. split; [exact Hs|exact Hne].
Qed.

Lemma vocab_insert_In t u vocab :
  In u (vocab_insert t vocab) <-> u = t \/ In u vocab.
Proof.
  induction vocab as [|w vocab IH]; simpl; [intuition congruence|].
  destruct (String.compare t w) eqn:E; simpl.
  - apply String.compare_eq_iff in E. subst. intuition congruence.
  - intuition congruence.
  - rewrite IH. intuition congruence.
Qed.

Lemma build_vocabulary_In docs t :
  In t (build_vocabulary docs) <-> exists doc, In doc docs /\ In t doc.
Proof.
  unfold build_vocabulary. rewrite <- in_concat.
  induction (List.concat docs) as [|u l IH]; simpl; [tauto|].
  rewrite vocab_insert_In, IH. intuition congruence.
Qed.

(** ** The properties of the specification *)

(** C4: the preprocessing [get_recommendations] applies to the user's text
    and the [clean_text] applied to every storyline at build time are the same
    function: on every string they give the same string. *)
Theorem query_normalization_is_clean_text (text : string) :
  preprocess_user_input nltk_english text = clean_text nltk_english text.
Proof. unfold preprocess_user_input, clean_text. reflexivity. Qed.

(** C9: a build that succeeds publishes globals that depend on the file
    only.  Run again from any other globals, the build succeeds again, with
    the same vocabulary and idf weights, the same matrix and the same table,
    and every query gets the same answer from both. *)
Theorem build_is_deterministic file g1 g2 g1' :
  load_and_preprocess_data nltk_english sklearn_english file g1
  = (true, g1') ->
  exists g2',
    load_and_preprocess_data nltk_english sklearn_english file g2
    = (true, g2') /\
    tfidf_vectorizer g2' = tfidf_vectorizer g1' /\
    tfidf_matrix g2' = tfidf_matrix g1' /\
    movies_df g2' = movies_df g1' /\
    forall q, get_recommendations nltk_english g2' q
              = get_recommendations nltk_english g1' q.
Proof.
  destruct file as [| |rs]; try (cbn; discriminate).
  rewrite !load_Records. cbv zeta.
  destruct (fit_transform _ _) as [[v m]|e]; [|discriminate].
  intros H. inversion H; subst g1'; clear H.
  eexists. split; [reflexivity|]. repeat split; reflexivity.
Qed.

(** C8: in a process where no build has succeeded, a build on a file without
    a usable record returns [False], and every later call of
    [get_recommendations], as long as the builds in between fail too, takes
    the not-initialized branch and returns the empty list. *)
Theorem empty_corpus_leaves_engine_uninitialized before rs after g0 g1 q :
  failed_builds nltk_english sklearn_english before initial_globals = Some g0 ->
  usable_movies rs = [] ->
  failed_builds nltk_english sklearn_english after
    (snd (load_and_preprocess_data nltk_english sklearn_english
            (Records rs) g0)) = Some g1 ->
  fst (load_and_preprocess_data nltk_english sklearn_english
         (Records rs) g0) = false /\
  get_recommendations nltk_english g1 q = Ok [].
Proof.
  intros Hbefore Hrs Hafter.
  pose proof (load_no_usable rs g0 Hrs) as Hfail.
  split; [exact Hfail|].
  apply recommend_without_matrix.
  rewrite (failed_builds_matrix _ _ _ Hafter).
  rewrite (load_false_matrix (Records rs) g0).
  - now rewrite (failed_builds_matrix _ _ _ Hbefore).
  - rewrite <- Hfail. apply surjective_pairing.
Qed.

(** C5 (amended): a failed build never touches the published TF-IDF matrix,
    and when it fails because the file cannot be read it leaves all three
    globals exactly as they were. *)
Theorem failed_build_keeps_matrix file g0 g :
  load_and_preprocess_data nltk_english sklearn_english file g0
  = (false, g) ->
  tfidf_matrix g = tfidf_matrix g0 /\
  (file = NoSuchFile \/ file = Unreadable -> g = g0).
Proof.
  intros H. split; [now apply (load_false_matrix file)|].
  intros [->| ->]; cbn in H; now inversion H.
Qed.

(** C6: a record whose storyline field is absent or empty takes no part in
    the build: with or without these records in the file the build returns
    the same flag and leaves the same vectorizer (vocabulary and weights) and
    the same matrix.  After a successful build every row of the table has a
    non-empty storyline, the one of a record of the file that has one; the
    matrix has one row per row of the table, and every recommended movie is
    a row of the table. *)
Theorem records_without_storyline_are_excluded rs g0 :
  fst (load_and_preprocess_data nltk_english sklearn_english (Records rs) g0)
  = fst (load_and_preprocess_data nltk_english sklearn_english
           (Records (filter (fun r => negb (no_storyline r)) rs)) g0) /\
  tfidf_vectorizer
    (snd (load_and_preprocess_data nltk_english sklearn_english
            (Records rs) g0))
  = tfidf_vectorizer
      (snd (load_and_preprocess_data nltk_english sklearn_english
              (Records (filter (fun r => negb (no_storyline r)) rs)) g0)) /\
  tfidf_matrix
    (snd (load_and_preprocess_data nltk_english sklearn_english
            (Records rs) g0))
  = tfidf_matrix
      (snd (load_and_preprocess_data nltk_english sklearn_english
              (Records (filter (fun r => negb (no_storyline r)) rs)) g0)) /\
  forall g,
    load_and_preprocess_data nltk_english sklearn_english (Records rs) g0
    = (true, g) ->
    exists df m,
      movies_df g = Some df /\ tfidf_matrix g = Some m /\
      List.length (rows m) = List.length (records df) /\
      (forall mv, In mv (records df) ->
         exists r text, In r rs /\ no_storyline r = false /\
                        storyline_field r = Some text /\
                        Storyline mv = Some text /\ text <> EmptyString) /\
      (forall q recs mv,
         get_recommendations nltk_english g q = Ok recs ->
         In mv recs -> In mv (records df)).
Proof.
  assert (Hsame :
            load (Records rs) g0
            = load (Records (filter (fun r => negb (no_storyline r)) rs)) g0)
    by (rewrite !load_Records; now rewrite usable_movies_filter).
  split; [now rewrite Hsame|]. split; [now rewrite Hsame|].
  split; [now rewrite Hsame|].
  intros g Hb. pose proof (load_true_inv _ _ _ Hb) as Hshape.
  destruct Hshape as (rs' & vocab & idf & Hf & _ & _ & _ & Hg).
  inversion Hf; subst rs'; clear Hf. cbv zeta in Hg.
  eexists _, _. split; [rewrite Hg; reflexivity|].
  split; [rewrite Hg; reflexivity|].
  split; [cbn [rows records]; now rewrite !length_map|].
  split.
  - intros mv Hmv.
    destruct (usable_movies_In _ _ Hmv) as (r & text & Hr & Hn & Hp & Hs & Hne).
    exists r, text. split; [exact Hr|]. split; [exact Hn|].
    split; [|split; [exact Hs|exact Hne]].
    subst mv. cbn [parse_record Storyline] in Hs. unfold parse_field in Hs.
    destruct (storyline_field r) as [t|]; [|discriminate].
    destruct (PyStr.mem t na_values); [discriminate|]. exact Hs.
  - intros q recs mv Hrec Hmv.
    destruct (query_built _ _ _ q Hb)
      as (df & v & m & u & cs & Hdf & _ & _ & _ & _ & _ & _ & _ & Hr).
    rewrite Hg in Hdf. cbn [movies_df] in Hdf. inversion Hdf; subst df.
    rewrite Hr in Hrec. eapply iloc_In; eauto.
Qed.

Lemma cosine_sim_of_built g df v m u cs q :
  movies_df g = Some df -> tfidf_vectorizer g = Some v ->
  tfidf_matrix g = Some m ->
  transform v (preprocess_user_input nltk_english q) = Ok u ->
  cosine_similarity u m = Ok cs ->
  cosine_sim_of nltk_english g q = Some (Ok cs).
Proof.
  intros Hdf Hv Hm Hu Hcs. unfold cosine_sim_of.
  rewrite Hdf, Hv, Hm, Hu. simpl. now rewrite Hcs.
Qed.

Lemma rows_at_indices {A : Type} (l : list A) d idxs :
  Forall (fun i => i < List.length l) idxs ->
  Forall2 (fun i x => nth_error l i = Some x) idxs
          (map (fun i => nth i l d) idxs).
Proof.
  induction 1 as [|i idxs Hi _ IH]; simpl; constructor; [|exact IH].
  now apply nth_error_nth'.
Qed.

(** C1: after a successful build, [get_recommendations] returns exactly
    min(5, corpus size) movies.  The k-th movie returned is the row of the
    table at the k-th index of a list in which every index outranks all that
    follow it and all that were left out: a strictly higher similarity score,
    or the same score and a smaller corpus index. *)
Theorem recommend_top_k_sorted_stable file g0 g q :
  load_and_preprocess_data nltk_english sklearn_english file g0
  = (true, g) ->
  exists df cosine_sim idxs recs,
    movies_df g = Some df /\
    cosine_sim_of nltk_english g q = Some (Ok cosine_sim) /\
    List.length cosine_sim = List.length (records df) /\
    get_recommendations nltk_english g q = Ok recs /\
    List.length recs
      = Nat.min RECOMMENDATION_COUNT (List.length (records df)) /\
    iloc df idxs = Ok recs /\
    Forall2 (fun i mv => nth_error (records df) i = Some mv) idxs recs /\
    StronglySorted (outranks cosine_sim) idxs /\
    (forall i j, In i idxs -> j < List.length (records df) -> ~ In j idxs ->
                 outranks cosine_sim i j).
Proof.
  intros Hb.
  destruct (query_built _ _ _ q Hb)
    as (df & v & m & u & cs & Hdf & Hv & Hm & Hu & Hcs & _ & Hlen & _ & Hr).
  destruct (top_indices_spec cs) as (Hk & Hsorted & Hrange & Htop).
  rewrite Hlen in Hrange.
  pose proof (iloc_in_range df _ Hrange) as Hiloc.
  eexists df, cs, (top_indices cs), _.
  split; [exact Hdf|].
  split; [eapply cosine_sim_of_built; eauto|].
  split; [exact Hlen|].
  split; [rewrite Hr; exact Hiloc|].
  split; [rewrite length_map, Hk, Hlen; reflexivity|].
  split; [exact Hiloc|].
  split; [now apply rows_at_indices|]. split; [exact Hsorted|].
  intros i j Hi Hj Hnj. apply Htop; [exact Hi| |exact Hnj]. now rewrite Hlen.
Qed.

(** C2 (amended): after a successful build, a query that is empty or made of
    whitespace only is not an error: every movie scores 0 and the first
    min(5, corpus size) movies of the table are returned, in the order of the
    table; the answer is never empty. *)
Theorem blank_query_returns_first_movies file g0 g q :
  load_and_preprocess_data nltk_english sklearn_english file g0
  = (true, g) -> blank q = true ->
  exists df cosine_sim,
    movies_df g = Some df /\
    cosine_sim_of nltk_english g q = Some (Ok cosine_sim) /\
    Forall (fun s => s = 0%R) cosine_sim /\
    List.length cosine_sim = List.length (records df) /\
    get_recommendations nltk_english g q
    = Ok (firstn RECOMMENDATION_COUNT (records df)) /\
    firstn RECOMMENDATION_COUNT (records df) <> [].
Proof.
  intros Hb Hq.
  destruct (recommend_blank _ _ _ q Hb Hq)
    as (df & cs & Hdf & Hcs & Hz & Hlen & Hne & Hr).
  exists df, cs. repeat split; try assumption.
  destruct (records df); [contradiction|discriminate].
Qed.


(** C10 (amended): the fitted vectorizer carries scikit-learn's stop list,
    and the same analysis serves both sides.  A word of a storyline is a term
    of the vocabulary, and a word of the query counts in the query vector,
    exactly when it is on neither of the two stop lists and is at least two
    characters long. *)
Theorem stop_lists_and_short_words_are_removed file g0 g q :
  load_and_preprocess_data nltk_english sklearn_english file g0
  = (true, g) ->
  exists rs v m vocab idf,
    file = Records rs /\ tfidf_vectorizer g = Some v /\
    tfidf_matrix g = Some m /\
    stop_words v = sklearn_english /\ fitted v = Some (vocab, idf) /\
    (forall t, In t vocab <->
       exists mv, In mv (usable_movies rs) /\
                  In t (raw_words (storyline_text mv)) /\
                  survives nltk_english sklearn_english t = true) /\
    rows m
      = map (fun mv => tfidf_row vocab idf
                         (filter (survives nltk_english sklearn_english)
                                 (raw_words (storyline_text mv))))
            (usable_movies rs) /\
    transform v (preprocess_user_input nltk_english q)
      = Ok (tfidf_row vocab idf
              (filter (survives nltk_english sklearn_english) (raw_words q))).
Proof.
  intros Hb. pose proof (load_true_inv _ _ _ Hb) as Hshape.
  destruct Hshape as (rs & vocab & idf & Hf & Hv & _ & _ & Hg). cbv zeta in *.
  assert (Han : forall text,
             build_analyzer fresh_vectorizer (clean text)
             = filter (survives nltk_english sklearn_english) (raw_words text))
    by (intros text; now apply analyzer_after_cleaning).
  eexists rs, _, _, vocab, idf.
  split; [exact Hf|]. split; [rewrite Hg; reflexivity|].
  split; [rewrite Hg; reflexivity|]. split; [reflexivity|].
  split; [reflexivity|]. split; [|split].
  - intros t. rewrite Hv, build_vocabulary_In. split.
    + intros [doc [Hdoc Ht]]. apply in_map_iff in Hdoc.
      destruct Hdoc as [mv [<- Hmv]]. rewrite Han in Ht.
      apply filter_In in Ht. exists mv. tauto.
    + intros [mv [Hmv [Ht Hs]]].
      exists (build_analyzer fresh_vectorizer (clean (storyline_text mv))).
      split; [apply in_map_iff; now exists mv|].
      rewrite Han. apply filter_In. tauto.
  - cbn [rows]. rewrite map_map. apply map_ext. intros mv. now rewrite Han.
  - unfold transform. cbn [fitted]. f_equal. f_equal.
    change (preprocess_user_input nltk_english q) with (clean q).
    now apply analyzer_after_cleaning.
Qed.


End EngineFacts.

(** ** The sample corpus *)

Example sorted_reverse_is_stable :
  sorted_reverse (fun a b : nat * nat => snd b <? snd a)
    [(0, 1); (1, 3); (2, 1); (3, 3); (4, 2)]
  = [(1, 3); (3, 3); (4, 2); (0, 1); (2, 1)].
Proof. reflexivity. Qed.

Example clean_text_sample :
  clean_text sample_nltk "A young Wizard -- his 1st journey, and the Dragon!"
  = "young wizard 1st journey dragon".
Proof. reflexivity. Qed.

Example split_sample :
  PyStr.split "  two   words " = ["two"; "words"].
Proof. reflexivity. Qed.

Example analyzer_sample :
  build_analyzer {| stop_words := sample_sklearn; fitted := None |}
    "he is also a wizard x 42"
  = ["wizard"; "42"].
Proof. reflexivity. Qed.

Example vocabulary_sample :
  build_vocabulary [["wizard"; "battles"; "dragon"]; ["dragon"; "murder"]]
  = ["battles"; "dragon"; "murder"; "wizard"].
Proof. reflexivity. Qed.

Lemma sample_table :
  movies_df sample_globals
  = Some {| records := [movie_A; movie_B];
            Cleaned_Storyline :=
              Some ["wizard battles dragon"; "detective solves murder"] |}.
Proof. reflexivity. Qed.

Lemma recommend_top_k_sorted_stable_witness :
  load_and_preprocess_data sample_nltk sample_sklearn sample_file
    initial_globals = (true, sample_globals) /\
  exists recs,
    get_recommendations sample_nltk sample_globals
      "a young wizard fights a dragon" = Ok recs /\
    List.length recs = 2.
Proof.
  split; [reflexivity|].
  destruct (recommend_top_k_sorted_stable sample_nltk sample_sklearn
              sample_file initial_globals sample_globals
              "a young wizard fights a dragon" eq_refl)
    as (df & cs & idxs & recs & Hdf & _ & _ & Hr & Hlen & _).
  exists recs. split; [exact Hr|].
  rewrite sample_table in Hdf. inversion Hdf; subst df. exact Hlen.
Defined.

Lemma blank_query_returns_first_movies_witness :
  load_and_preprocess_data sample_nltk sample_sklearn sample_file
    initial_globals = (true, sample_globals) /\
  blank "   " = true /\
  get_recommendations sample_nltk sample_globals "   "
  = Ok [movie_A; movie_B].
Proof.
  split; [reflexivity|]. split; [reflexivity|].
  destruct (blank_query_returns_first_movies sample_nltk sample_sklearn
              sample_file initial_globals sample_globals "   "
              eq_refl eq_refl)
    as (df & cs & Hdf & _ & _ & _ & Hr & _).
  rewrite sample_table in Hdf. inversion Hdf; subst df. exact Hr.
Defined.

(** C2, as stated, fails: on the sample index the empty query and a query of
    three spaces both get the two movies of the table, not the empty list. *)
Lemma blank_query_is_answered_with_movies :
  load_and_preprocess_data sample_nltk sample_sklearn sample_file
    initial_globals = (true, sample_globals) /\
  get_recommendations sample_nltk sample_globals ""
  = Ok [movie_A; movie_B] /\
  get_recommendations sample_nltk sample_globals "   "
  = Ok [movie_A; movie_B] /\
  get_recommendations sample_nltk sample_globals "   " <> Ok [].
Proof.
  assert (H : forall q, blank q = true ->
            get_recommendations sample_nltk sample_globals q
            = Ok [movie_A; movie_B]).
  { intros q Hq.
    destruct (recommend_blank sample_nltk sample_sklearn sample_file
                initial_globals sample_globals q eq_refl Hq)
      as (df & cs & Hdf & _ & _ & _ & _ & Hr).
    rewrite sample_table in Hdf. inversion Hdf; subst df. exact Hr. }
  split; [reflexivity|].
  split; [now apply H|]. split; [now apply H|].
  rewrite H by reflexivity. discriminate.
Qed.

Lemma failed_build_keeps_matrix_witness :
  load_and_preprocess_data sample_nltk sample_sklearn empty_file
    sample_globals = (false, half_built_globals) /\
  tfidf_matrix half_built_globals = tfidf_matrix sample_globals.
Proof.
  split; [reflexivity|].
  apply (failed_build_keeps_matrix sample_nltk sample_sklearn empty_file
           sample_globals half_built_globals). reflexivity.
Defined.

(** C5, as stated, fails: after a successful build on the sample file, a
    build on a file without a usable record returns [False] and has replaced
    the table and the vectorizer while the old matrix stays; the next query
    passes the guard and raises. *)
Lemma failed_build_leaves_half_built_index :
  load_and_preprocess_data sample_nltk sample_sklearn sample_file
    initial_globals = (true, sample_globals) /\
  load_and_preprocess_data sample_nltk sample_sklearn empty_file
    sample_globals = (false, half_built_globals) /\
  half_built_globals <> sample_globals /\
  movies_df half_built_globals
  = Some {| records := []; Cleaned_Storyline := Some [] |} /\
  tfidf_vectorizer half_built_globals
  = Some {| stop_words := sample_sklearn; fitted := None |} /\
  tfidf_matrix half_built_globals = tfidf_matrix sample_globals /\
  tfidf_matrix half_built_globals <> None /\
  get_recommendations sample_nltk half_built_globals "a wizard"
  = Raise NotFittedError.
Proof.
  split; [reflexivity|]. split; [reflexivity|].
  split.
  { intros H. apply (f_equal movies_df) in H. rewrite sample_table in H.
    discriminate H. }
  split; [reflexivity|]. split; [reflexivity|]. split; [reflexivity|].
  split; [discriminate|]. reflexivity.
Qed.

Lemma empty_corpus_leaves_engine_uninitialized_witness :
  failed_builds sample_nltk sample_sklearn [NoSuchFile] initial_globals
  = Some initial_globals /\
  usable_movies [record_C] = [] /\
  failed_builds sample_nltk sample_sklearn [Unreadable; empty_file]
    (snd (load_and_preprocess_data sample_nltk sample_sklearn
            (Records [record_C]) initial_globals))
  = Some never_built_globals /\
  fst (load_and_preprocess_data sample_nltk sample_sklearn
         (Records [record_C]) initial_globals) = false /\
  get_recommendations sample_nltk never_built_globals "a wizard" = Ok [].
Proof.
  split; [reflexivity|]. split; [reflexivity|]. split; [reflexivity|].
  apply (empty_corpus_leaves_engine_uninitialized sample_nltk sample_sklearn
           [NoSuchFile] [record_C] [Unreadable; empty_file]
           initial_globals never_built_globals "a wizard");
    reflexivity.
Defined.

Lemma build_is_deterministic_witness :
  load_and_preprocess_data sample_nltk sample_sklearn sample_file
    initial_globals = (true, sample_globals) /\
  exists g,
    load_and_preprocess_data sample_nltk sample_sklearn sample_file
      half_built_globals = (true, g) /\
    tfidf_vectorizer g = tfidf_vectorizer sample_globals /\
    tfidf_matrix g = tfidf_matrix sample_globals /\
    forall q, get_recommendations sample_nltk g q
              = get_recommendations sample_nltk sample_globals q.
Proof.
  split; [reflexivity|].
  destruct (build_is_deterministic sample_nltk sample_sklearn sample_file
              initial_globals half_built_globals sample_globals eq_refl)
    as (g & Hg & Hv & Hm & _ & Hq).
  exists g. auto.
Defined.

Lemma stop_lists_and_short_words_are_removed_witness :
  load_and_preprocess_data sample_nltk sample_sklearn sample_file
    initial_globals = (true, sample_globals) /\
  exists v vocab idf,
    tfidf_vectorizer sample_globals = Some v /\
    fitted v = Some (vocab, idf) /\
    transform v (preprocess_user_input sample_nltk "he is also a wizard")
    = Ok (tfidf_row vocab idf ["wizard"]).
Proof.
  split; [reflexivity|].
  destruct (stop_lists_and_short_words_are_removed sample_nltk sample_sklearn
              sample_file initial_globals sample_globals
              "he is also a wizard" eq_refl)
    as (rs & v & m & vocab & idf & _ & Hv & _ & _ & Hf & _ & _ & Ht).
  exists v, vocab, idf. split; [exact Hv|]. split; [exact Hf|]. exact Ht.
Defined.

(** C10, as stated, fails: the one-letter word "x" is on neither stop list,
    yet it is not among the terms of its storyline and not in the vocabulary
    of the index built from it. *)
Lemma one_letter_word_is_removed_too :
  In "x" (raw_words "x wizard") /\
  PyStr.mem "x" sample_nltk = false /\
  PyStr.mem "x" sample_sklearn = false /\
  build_analyzer {| stop_words := sample_sklearn; fitted := None |}
    (clean_text sample_nltk "x wizard") = ["wizard"] /\
  fst (load_and_preprocess_data sample_nltk sample_sklearn
         (Records [record_X]) initial_globals) = true /\
  exists idf,
    tfidf_vectorizer
      (snd (load_and_preprocess_data sample_nltk sample_sklearn
              (Records [record_X]) initial_globals))
    = Some {| stop_words := sample_sklearn;
              fitted := Some (["wizard"], idf) |}.
Proof.
  split; [vm_compute; auto|]. split; [reflexivity|]. split; [reflexivity|].
  split; [reflexivity|]. split; [reflexivity|].
  eexists. reflexivity.
Qed.

(** ** More about the engine *)

Section MoreFacts.

Variable nltk_english : list string.
Variable sklearn_english : list string.

Lemma filter_idempotent {A : Type} (f : A -> bool) l :
  filter f (filter f l) = filter f l.
Proof.
  rewrite filter_filter. apply filter_ext. intros x. now destruct (f x).
Qed.

Lemma kept_words text :
  Forall (fun w => w <> EmptyString /\
                   PyStr.all_chars (fun c => negb (PyStr.isspace c)) w = true /\
                   PyStr.all_chars PyStr.kept w = true)
         (filter (fun word => negb (PyStr.mem word nltk_english))
                 (raw_words text)).
Proof.
  pose proof (raw_words_runs text) as H. rewrite Forall_forall in H.
  apply Forall_forall. intros w Hw. apply filter_In in Hw. now apply H.
Qed.

(** The words of a cleaned text are the words that were joined. *)
Lemma split_clean_text text :
  PyStr.split (clean_text nltk_english text)
  = filter (fun word => negb (PyStr.mem word nltk_english)) (raw_words text).
Proof.
  unfold clean_text. fold (raw_words text). unfold PyStr.split.
  apply fields_join; [reflexivity|].
  eapply Forall_impl; [|apply kept_words]. now intros w (H1 & H2 & _).
Qed.

Lemma clean_text_kept text :
  PyStr.all_chars PyStr.kept (clean_text nltk_english text) = true.
Proof.
  unfold clean_text. fold (raw_words text). apply join_kept.
  eapply Forall_impl; [|apply kept_words]. now intros w (_ & _ & H).
Qed.

(** X1: cleaning a text that was already cleaned changes nothing. *)
Theorem clean_text_idempotent (text : string) :
  clean_text nltk_english (clean_text nltk_english text)
  = clean_text nltk_english text.
Proof.
  pose proof (split_clean_text text) as Hsplit.
  pose proof (clean_text_kept text) as Hkept.
  unfold clean_text at 1.
  rewrite (lower_kept _ Hkept), (strip_special_id _ Hkept), Hsplit.
  rewrite filter_idempotent. reflexivity.
Qed.

Lemma kept_not_space c :
  PyStr.kept c = true -> PyStr.isspace c = false ->
  PyStr.is_lower_az c || PyStr.is_digit c = true.
Proof. unfold PyStr.kept. intros H Hs. now rewrite Hs, orb_false_r in H. Qed.

(** X2: a cleaned text is its words joined by single spaces; every word is
    a non-empty run of [[a-z0-9]] and none is an NLTK stop word. *)
Theorem clean_text_words (text : string) :
  clean_text nltk_english text
  = PyStr.join (PyStr.split (clean_text nltk_english text)) /\
  Forall (fun w =>
            w <> EmptyString /\
            PyStr.mem w nltk_english = false /\
            PyStr.all_chars (fun c => PyStr.is_lower_az c || PyStr.is_digit c) w
            = true)
         (PyStr.split (clean_text nltk_english text)).
Proof.
  rewrite split_clean_text. split; [reflexivity|].
  apply Forall_forall. intros w Hw.
  pose proof (kept_words text) as H. rewrite Forall_forall in H.
  destruct (H w Hw) as (Hne & Hsp & Hk).
  apply filter_In in Hw. destruct Hw as [_ Hw]. apply negb_true_iff in Hw.
  split; [exact Hne|]. split; [exact Hw|].
  eapply all_chars_impl; [|exact (all_chars_and _ _ _ Hk Hsp)].
  intros c Hc. apply andb_prop in Hc. destruct Hc as [Hc1 Hc2].
  apply negb_true_iff in Hc2. now apply kept_not_space.
Qed.

Lemma outranks_irrefl scores i : ~ outranks scores i i.
Proof.
  intros (si & sj & Hi & Hj & H). rewrite Hi in Hj. inversion Hj; subst.
  destruct H as [H|[_ H]]; [lra|lia].
Qed.

Lemma StronglySorted_NoDup {A : Type} (R : A -> A -> Prop) l :
  (forall x, ~ R x x) -> StronglySorted R l -> NoDup l.
Proof.
  intros Hirr. induction 1 as [|x l _ IH Hx]; constructor; [|exact IH].
  intros Hin. rewrite Forall_forall in Hx. exact (Hirr x (Hx x Hin)).
Qed.

(** X3: whatever the scores, the indices the engine keeps are positions of
    the score list and no position is kept twice: no row of the table is
    recommended twice. *)
Theorem top_indices_distinct (cosine_sim : list R) :
  NoDup (top_indices cosine_sim) /\
  Forall (fun i => i < List.length cosine_sim) (top_indices cosine_sim) /\
  List.length (top_indices cosine_sim) <= RECOMMENDATION_COUNT.
Proof.
  destruct (top_indices_spec cosine_sim) as (Hk & Hs & Hr & _).
  split; [|split; [exact Hr|]].
  - eapply StronglySorted_NoDup; [apply outranks_irrefl|exact Hs].
  - rewrite Hk. apply Nat.le_min_l.
Qed.

Lemma Permutation_filter {A : Type} (f : A -> bool) l1 l2 :
  Permutation l1 l2 -> Permutation (filter f l1) (filter f l2).
Proof.
  induction 1 as [|x l1 l2 _ IH|x y l|l1 l2 l3 _ IH1 _ IH2]; simpl.
  - constructor.
  - destruct (f x); [now constructor|exact IH].
  - destruct (f x), (f y); try reflexivity. constructor.
  - now transitivity (filter f l2).
Qed.

Lemma tfidf_row_Permutation vocab idf tokens1 tokens2 :
  Permutation tokens1 tokens2 ->
  tfidf_row vocab idf tokens1 = tfidf_row vocab idf tokens2.
Proof.
  intros H. unfold tfidf_row. f_equal. apply map_ext. intros [t w]. simpl.
  now rewrite (proj1 (Permutation_count_occ string_dec tokens1 tokens2) H t).
Qed.

(** X4: the order of the words of a query does not matter: two queries with
    the same words, each as often, get the same answer from any globals. *)
Theorem word_order_is_irrelevant (g : globals) (q1 q2 : string) :
  Permutation (raw_words q1) (raw_words q2) ->
  get_recommendations nltk_english g q1 = get_recommendations nltk_english g q2.
Proof.
  intros H. unfold get_recommendations.
  destruct (movies_df g) as [df|]; [|reflexivity].
  destruct (tfidf_vectorizer g) as [v|]; [|reflexivity].
  destruct (tfidf_matrix g) as [m|]; [|reflexivity].
  cbv zeta. unfold transform.
  destruct (fitted v) as [[vocab idf]|]; [|reflexivity].
  change (preprocess_user_input nltk_english q1)
    with (clean_text nltk_english q1).
  change (preprocess_user_input nltk_english q2)
    with (clean_text nltk_english q2).
  rewrite !(analyzer_after_cleaning nltk_english (stop_words v) v) by reflexivity.
  rewrite (tfidf_row_Permutation vocab idf _ _ (Permutation_filter _ _ _ H)).
  reflexivity.
Qed.

Local Abbreviation load :=
  (load_and_preprocess_data nltk_english sklearn_english).
Local Abbreviation recommend := (get_recommendations nltk_english).
Local Abbreviation keeps := (survives nltk_english sklearn_english).

(** The terms of a text: its words that reach the term vector. *)
Local Abbreviation terms := (fun text => filter keeps (raw_words text)).

(** The scores of a query against a built index, written out: one score per
    row of the table, the inner product of the normalised rows of the query
    and of the storyline. *)
Lemma built_scores file g0 g q :
  load file g0 = (true, g) ->
  exists rs df vocab idf,
    file = Records rs /\
    movies_df g = Some df /\ records df = usable_movies rs /\
    usable_movies rs <> [] /\
    (forall t, In t vocab <->
       exists mv, In mv (usable_movies rs) /\
                  In t (terms (storyline_text mv))) /\
    idf = map (idf_weight (map (fun mv => terms (storyline_text mv))
                               (usable_movies rs))) vocab /\
    cosine_sim_of nltk_english g q
    = Some (Ok (map (fun mv =>
                       Vec.dot
                         (Vec.normalize (tfidf_row vocab idf (terms q)))
                         (Vec.normalize
                            (tfidf_row vocab idf (terms (storyline_text mv)))))
                    (usable_movies rs))) /\
    recommend g q
    = iloc df
        (top_indices
           (map (fun mv =>
                   Vec.dot
                     (Vec.normalize (tfidf_row vocab idf (terms q)))
                     (Vec.normalize
                        (tfidf_row vocab idf (terms (storyline_text mv)))))
                (usable_movies rs))).
Proof.
  intros Hb. pose proof (load_true_inv _ _ _ _ _ Hb) as Hshape.
  destruct Hshape as (rs & vocab & idf & Hf & Hv & _ & Hi & Hg). cbv zeta in *.
  assert (Han : forall text,
             build_analyzer {| stop_words := sklearn_english; fitted := None |}
               (clean_text nltk_english text) = terms text)
    by (intros text; now apply analyzer_after_cleaning).
  assert (Hdocs :
            map (fun m => build_analyzer
                            {| stop_words := sklearn_english; fitted := None |}
                            (clean_text nltk_english (storyline_text m)))
                (usable_movies rs)
            = map (fun mv => terms (storyline_text mv)) (usable_movies rs))
    by (apply map_ext; intros mv; apply Han).
  rewrite Hdocs in Hv, Hi, Hg.
  destruct (query_built _ _ _ _ _ q Hb)
    as (df & v & m & u & cs & Hdf & Hvz & Hm & Hu & Hcs & Hmap & _ & Hne & Hr).
  rewrite Hg in Hdf, Hvz, Hm.
  cbn [movies_df tfidf_vectorizer tfidf_matrix] in Hdf, Hvz, Hm.
  inversion Hdf; subst df. inversion Hvz; subst v. inversion Hm; subst m.
  clear Hdf Hvz Hm. cbn [records rows] in *.
  unfold transform in Hu. cbn [fitted] in Hu.
  change (preprocess_user_input nltk_english q)
    with (clean_text nltk_english q) in Hu.
  rewrite (analyzer_after_cleaning nltk_english sklearn_english) in Hu
    by reflexivity.
  inversion Hu; subst u. rewrite !map_map in Hmap.
  assert (Hcso : cosine_sim_of nltk_english g q = Some (Ok cs)).
  { rewrite Hg. unfold cosine_sim_of.
    cbn [movies_df tfidf_vectorizer tfidf_matrix]. unfold transform.
    cbn [fitted].
    change (preprocess_user_input nltk_english q)
      with (clean_text nltk_english q).
    rewrite (analyzer_after_cleaning nltk_english sklearn_english)
      by reflexivity.
    cbn [bind]. now rewrite Hcs. }
  eexists rs, _, vocab, idf.
  split; [exact Hf|]. split; [rewrite Hg; reflexivity|].
  split; [reflexivity|]. split; [exact Hne|]. split.
  { intros t. rewrite Hv, build_vocabulary_In. split.
    - intros [doc [Hdoc Ht]]. apply in_map_iff in Hdoc.
      destruct Hdoc as [mv [<- Hmv]]. now exists mv.
    - intros [mv [Hmv Ht]]. exists (terms (storyline_text mv)).
      split; [apply in_map_iff; now exists mv|exact Ht]. }
  split; [exact Hi|]. subst cs. split; [exact Hcso|exact Hr].
Qed.

(** *** Queries that share no term with the corpus *)

Lemma zero_query_row_scores {A : Type} (u : Vec.vector)
  (row : A -> Vec.vector) (l : list A) :
  Forall (fun x => x = 0%R) u ->
  Forall (fun s => s = 0%R)
    (map (fun a => Vec.dot (Vec.normalize u) (Vec.normalize (row a))) l).
Proof.
  intros Hz. apply Forall_forall. intros s Hs. apply in_map_iff in Hs.
  destruct Hs as [a [<- _]]. apply dot_zero_l, normalize_zero.
  now apply dot_zero_l.
Qed.

(** X6: after a successful build, a query none of whose terms occurs in an
    indexed storyline is not an error: every movie scores 0 and the first
    min(5, corpus size) rows of the table are returned in table order. *)
Theorem unknown_terms_query_returns_first_rows file g0 g df q :
  load_and_preprocess_data nltk_english sklearn_english file g0
  = (true, g) ->
  movies_df g = Some df ->
  (forall w mv,
     In w (raw_words q) -> survives nltk_english sklearn_english w = true ->
     In mv (records df) -> ~ In w (raw_words (storyline_text mv))) ->
  exists cosine_sim,
    cosine_sim_of nltk_english g q = Some (Ok cosine_sim) /\
    Forall (fun s => s = 0%R) cosine_sim /\
    get_recommendations nltk_english g q
    = Ok (firstn RECOMMENDATION_COUNT (records df)).
Proof.
  intros Hb Hdf Hq.
  destruct (built_scores _ _ _ q Hb)
    as (rs & df' & vocab & idf & _ & Hdf' & Hrec & _ & Hvoc & _ & Hcs & Hr).
  rewrite Hdf in Hdf'. inversion Hdf'; subst df'; clear Hdf'.
  assert (Hu : Forall (fun x => x = 0%R) (tfidf_row vocab idf (terms q))).
  { apply tfidf_row_no_term. intros t Ht Hin.
    apply Hvoc in Ht. destruct Ht as [mv [Hmv Ht]].
    apply filter_In in Ht, Hin. destruct Ht as [Ht _], Hin as [Hin Hk].
    apply (Hq t mv); try assumption. now rewrite Hrec. }
  eexists. split; [exact Hcs|].
  pose proof (zero_query_row_scores _
                (fun mv => tfidf_row vocab idf (terms (storyline_text mv)))
                (usable_movies rs) Hu) as Hz.
  split; [exact Hz|]. rewrite Hr. apply iloc_first_rows; [|exact Hz].
  now rewrite length_map, Hrec.
Qed.

(** *** When a build succeeds *)

(** X8: a build returns [True] only when the file can be read and some
    record has a storyline field, not one of the missing-value markers, with
    a word that is on neither stop list and is at least two characters
    long. *)
Theorem build_succeeds_only_with_some_term file g0 :
  fst (load_and_preprocess_data nltk_english sklearn_english file g0) = true ->
  exists rs r text w,
    file = Records rs /\ In r rs /\
    storyline_field r = Some text /\ PyStr.mem text na_values = false /\
    In w (raw_words text) /\
    survives nltk_english sklearn_english w = true.
Proof.
  destruct file as [| |rs]; try (cbn; discriminate).
  rewrite (load_Records nltk_english sklearn_english). cbv zeta.
  unfold fit_transform.
  set (docs := map (build_analyzer _) _).
  destruct (build_vocabulary docs) as [|t vocab] eqn:E; cbn [fst];
    [discriminate|].
  intros _.
  assert (Ht : In t (build_vocabulary docs)) by (rewrite E; now left).
  apply build_vocabulary_In in Ht. destruct Ht as [doc [Hdoc Ht]].
  unfold docs in Hdoc. rewrite map_map in Hdoc. apply in_map_iff in Hdoc.
  destruct Hdoc as [mv [<- Hmv]].
  rewrite (analyzer_after_cleaning nltk_english sklearn_english) in Ht
    by reflexivity.
  apply filter_In in Ht. destruct Ht as [Hw Hk].
  destruct (usable_movies_In _ _ Hmv) as (r & text & Hr & _ & Hp & Hs & _).
  assert (Hst : storyline_text mv = text)
    by (unfold storyline_text; now rewrite Hs).
  rewrite Hst in Hw.
  exists rs, r, text, t. split; [reflexivity|]. split; [exact Hr|].
  subst mv. cbn [parse_record Storyline] in Hs. unfold parse_field in Hs.
  destruct (storyline_field r) as [f|]; [|discriminate].
  destruct (PyStr.mem f na_values) eqn:Ena; [discriminate|].
  inversion Hs; subst f. auto.
Qed.

(** *** After a build without a usable record *)

(** X9: once a build has published a matrix, a later build on a readable
    file without a single usable record returns [False] and leaves the old
    matrix beside an empty table and an unfitted vectorizer: every query on
    these globals passes the guard and raises [NotFittedError]. *)
Theorem build_without_usable_record_makes_queries_raise rs g0 q :
  tfidf_matrix g0 <> None ->
  usable_movies rs = [] ->
  fst (load_and_preprocess_data nltk_english sklearn_english
         (Records rs) g0) = false /\
  get_recommendations nltk_english
    (snd (load_and_preprocess_data nltk_english sklearn_english
            (Records rs) g0)) q
  = Raise NotFittedError.
Proof.
  intros Hm Hrs.
  rewrite (load_Records nltk_english sklearn_english), Hrs.
  cbv zeta. cbn [map fit_transform build_vocabulary List.concat fold_right
                 fst snd].
  split; [reflexivity|]. unfold get_recommendations.
  cbn [movies_df tfidf_vectorizer tfidf_matrix].
  destruct (tfidf_matrix g0) as [m|]; [reflexivity|contradiction].
Qed.

(** ** The scraper *)

Lemma rstrip_idempotent text :
  Scraper.rstrip (Scraper.rstrip text) = Scraper.rstrip text.
Proof.
  induction text as [|c rest IH]; [reflexivity|]. simpl.
  destruct (Scraper.rstrip rest) as [|c' kept] eqn:E.
  - destruct (PyStr.isspace c) eqn:Ec; [reflexivity|]. simpl. now rewrite Ec.
  - change (Scraper.rstrip (String c (String c' kept)))
      with (match Scraper.rstrip (String c' kept) with
            | EmptyString => if PyStr.isspace c then EmptyString
                             else String c EmptyString
            | kept' => String c kept'
            end).
    now rewrite IH.
Qed.

Lemma lstrip_idempotent text :
  Scraper.lstrip (Scraper.lstrip text) = Scraper.lstrip text.
Proof.
  induction text as [|c rest IH]; [reflexivity|]. simpl.
  destruct (PyStr.isspace c) eqn:Ec; [exact IH|]. simpl. now rewrite Ec.
Qed.

(** Stripping the right end keeps a left end that has no whitespace. *)
Lemma lstrip_rstrip text :
  Scraper.lstrip text = text ->
  Scraper.lstrip (Scraper.rstrip text) = Scraper.rstrip text.
Proof.
  destruct text as [|c rest]; [reflexivity|]. intros H.
  assert (Hc : PyStr.isspace c = false).
  { simpl in H. destruct (PyStr.isspace c) eqn:Ec; [|reflexivity].
    exfalso. clear -H.
    assert (Hlen : forall s, String.length (Scraper.lstrip s) <= String.length s).
    { induction s as [|a s IHs]; simpl; [lia|].
      destruct (PyStr.isspace a); simpl; lia. }
    specialize (Hlen rest). rewrite H in Hlen. simpl in Hlen. lia. }
  simpl. destruct (Scraper.rstrip rest); rewrite ?Hc; simpl; now rewrite Hc.
Qed.

Lemma strip_stripped text : Scraper.stripped (Scraper.strip text).
Proof.
  unfold Scraper.stripped, Scraper.strip. split.
  - apply lstrip_rstrip, lstrip_idempotent.
  - apply rstrip_idempotent.
Qed.

Lemma after_first_space_found prefix rest :
  PyStr.all_chars (fun c => negb (Ascii.eqb c " ")) prefix = true ->
  Scraper.after_first_space (String.append prefix (String " " rest))
  = Some rest.
Proof.
  induction prefix as [|c prefix IH]; simpl; [reflexivity|].
  intros H. apply andb_prop in H. destruct H as [Hc Hp].
  apply negb_true_iff in Hc. rewrite Hc. now apply IH.
Qed.

Lemma after_first_space_none text :
  PyStr.all_chars (fun c => negb (Ascii.eqb c " ")) text = true ->
  Scraper.after_first_space text = None.
Proof.
  induction text as [|c rest IH]; simpl; [reflexivity|].
  intros H. apply andb_prop in H. destruct H as [Hc Hp].
  apply negb_true_iff in Hc. rewrite Hc. now apply IH.
Qed.

Lemma append_not_empty prefix c rest :
  Scraper.is_empty (String.append prefix (String c rest)) = false.
Proof. destruct prefix; reflexivity. Qed.

(** X10: the name kept for a list item is its title text without the first
    space-separated token (the rank in front of the title), stripped; the
    storyline is the stripped text, or the placeholder when the text is
    empty. *)
Theorem scraped_name_drops_first_token item prefix rest text :
  Scraper.title_text item = Some (String.append prefix (String " " rest)) ->
  PyStr.all_chars (fun c => negb (Ascii.eqb c " ")) prefix = true ->
  Scraper.storyline_element_text item = Some text ->
  Scraper.scrape_item item
  = inr {| Scraper.scraped_name := Scraper.strip rest;
           Scraper.scraped_storyline :=
             if Scraper.is_empty text then "N/A" else Scraper.strip text |}.
Proof.
  intros Ht Hp Hs. unfold Scraper.scrape_item.
  rewrite Ht, append_not_empty, (after_first_space_found _ _ Hp), Hs.
  reflexivity.
Qed.

(** X11: a list item whose title text is not empty and has no space
    character raises inside the loop and is skipped: it leaves no entry. *)
Theorem title_without_space_is_skipped item title items :
  Scraper.title_text item = Some title ->
  title <> EmptyString ->
  PyStr.all_chars (fun c => negb (Ascii.eqb c " ")) title = true ->
  Scraper.scrape_item item = inl Scraper.ListIndexError /\
  Scraper.scrape_imdb (item :: items) = Scraper.scrape_imdb items.
Proof.
  intros Ht Hne Hp.
  assert (H : Scraper.scrape_item item = inl Scraper.ListIndexError).
  { unfold Scraper.scrape_item. rewrite Ht.
    destruct title as [|c rest]; [contradiction|].
    cbn [Scraper.is_empty]. now rewrite (after_first_space_none _ Hp). }
  split; [exact H|]. simpl. now rewrite H.
Qed.

Lemma scrape_item_stripped item e :
  Scraper.scrape_item item = inr e ->
  Scraper.stripped (Scraper.scraped_name e) /\
  Scraper.stripped (Scraper.scraped_storyline e).
Proof.
  unfold Scraper.scrape_item.
  destruct (Scraper.title_text item) as [title|]; [|discriminate].
  destruct (Scraper.storyline_element_text item) as [text|].
  2:{ destruct (Scraper.is_empty title);
        [discriminate|destruct (Scraper.after_first_space title); discriminate]. }
  assert (Hs : Scraper.stripped
                 (if Scraper.is_empty text then "N/A" else Scraper.strip text)).
  { destruct (Scraper.is_empty text); [split; reflexivity|apply strip_stripped]. }
  destruct (Scraper.is_empty title).
  - intros H. inversion H; subst e. simpl. split; [split; reflexivity|exact Hs].
  - destruct (Scraper.after_first_space title) as [rest|]; [|discriminate].
    intros H. inversion H; subst e. simpl. split; [apply strip_stripped|exact Hs].
Qed.

Lemma scrape_imdb_In items e :
  In e (Scraper.scrape_imdb items) ->
  exists item, In item items /\ Scraper.scrape_item item = inr e.
Proof.
  induction items as [|item items IH]; simpl; [contradiction|].
  destruct (Scraper.scrape_item item) as [x|e'] eqn:E.
  - intros H. destruct (IH H) as [it [Hit He]]. exists it. auto.
  - intros [<-|H].
    + exists item. auto.
    + destruct (IH H) as [it [Hit He]]. exists it. auto.
Qed.

(** X12: whatever the page shows, there is at most one entry per list item
    and no entry has whitespace at either end of its name or of its
    storyline. *)
Theorem scraped_entries_are_stripped items :
  List.length (Scraper.scrape_imdb items) <= List.length items /\
  Forall (fun e => Scraper.stripped (Scraper.scraped_name e) /\
                   Scraper.stripped (Scraper.scraped_storyline e))
         (Scraper.scrape_imdb items).
Proof.
  split.
  - induction items as [|item items IH]; simpl; [lia|].
    destruct (Scraper.scrape_item item); simpl; lia.
  - apply Forall_forall. intros e He.
    destruct (scrape_imdb_In _ _ He) as [item [_ Hi]].
    now apply (scrape_item_stripped item).
Qed.

(** ** From the scraper to the engine *)

(** X13: when the engine is built on the file the scraper saved, every
    movie it recommends comes from a scraped entry and shows that entry's
    storyline, which is neither empty nor the placeholder: a list item
    without storyline text is never recommended. *)
Theorem recommended_movies_have_a_scraped_storyline items g0 g q recs mv :
  load_and_preprocess_data nltk_english sklearn_english
    (Scraper.main items) g0 = (true, g) ->
  get_recommendations nltk_english g q = Ok recs ->
  In mv recs ->
  exists e,
    In e (Scraper.scrape_imdb items) /\
    Storyline mv = Some (Scraper.scraped_storyline e) /\
    Scraper.scraped_storyline e <> "N/A" /\
    Scraper.scraped_storyline e <> EmptyString.
Proof.
  intros Hb Hr Hmv.
  destruct (query_built _ _ _ _ _ q Hb)
    as (df & v & m & u & cs & Hdf & _ & _ & _ & _ & _ & _ & _ & Hrec).
  pose proof (load_true_inv _ _ _ _ _ Hb) as Hshape.
  destruct Hshape as (rs & vocab & idf & Hf & _ & _ & _ & Hg). cbv zeta in Hg.
  rewrite Hg in Hdf. cbn [movies_df] in Hdf. inversion Hdf; subst df; clear Hdf.
  rewrite Hrec in Hr. pose proof (iloc_In _ _ _ _ Hr Hmv) as Hin.
  cbn [records] in Hin.
  destruct (usable_movies_In _ _ Hin) as (r & text & Hrin & _ & Hpr & Hst & Hne).
  unfold Scraper.main, Scraper.to_csv in Hf.
  destruct (Scraper.scrape_imdb items) as [|e0 es] eqn:Es; [discriminate|].
  inversion Hf; subst rs.
  assert (Hex : exists e,
             {| name_field := Some (Scraper.scraped_name e);
                storyline_field := Some (Scraper.scraped_storyline e) |} = r /\
             In e (e0 :: es)).
  { destruct Hrin as [H0|H1]; [exists e0; split; [exact H0|now left]|].
    apply in_map_iff in H1. destruct H1 as [e [H1 H2]].
    exists e. split; [exact H1|now right]. }
  destruct Hex as [e [Hre He]]. exists e. split; [exact He|].
  subst r mv. cbn [parse_record Storyline Movie_Name storyline_field name_field]
    in *.
  unfold parse_field in Hst.
  destruct (PyStr.mem (Scraper.scraped_storyline e) na_values) eqn:Ena;
    [discriminate|].
  inversion Hst; subst text.
  split; [unfold parse_field; now rewrite Ena|].
  split; [|exact Hne]. intros E. rewrite E in Ena. discriminate.
Qed.

(** ** The web page *)

Lemma show_movie_quiet l :
  existsb is_warning (flat_map show_movie l) = false /\
  existsb is_error (flat_map show_movie l) = false.
Proof. induction l as [|im l [IH1 IH2]]; simpl; auto. Qed.

Lemma length_flat_map_show_movie l :
  List.length (flat_map show_movie l) = 3 * List.length l.
Proof. induction l as [|im l IH]; simpl; [reflexivity|]. rewrite IH. lia. Qed.

Lemma is_empty_false text :
  text <> EmptyString -> Scraper.is_empty text = false.
Proof. destruct text; [contradiction|reflexivity]. Qed.

(** What a click shows when the engine answers with movies. *)
Lemma on_click_answered g text first others :
  text <> EmptyString ->
  get_recommendations nltk_english g text = Ok (first :: others) ->
  on_click nltk_english g text
  = st_markdown "### Top 5 Recommended Movies"
    :: flat_map show_movie (enumerate (first :: others)).
Proof.
  intros Hne Hr. unfold on_click. rewrite (is_empty_false _ Hne), Hr.
  reflexivity.
Qed.

(** X14: whatever globals the engine module held before, a run of the page
    that is not stopped answers a click with a non-empty text by the header
    and three calls for each of min(5, corpus size) movies, at least one:
    the query never raises, and neither the error message nor the "no
    recommendations" warning is shown. *)
Theorem click_shows_recommendations file g text :
  stopped (app_script nltk_english sklearn_english file g text true) = false ->
  text <> EmptyString ->
  exists df recs,
    movies_df (globals_after
                 (app_script nltk_english sklearn_english file g text true))
    = Some df /\
    get_recommendations nltk_english
      (globals_after (app_script nltk_english sklearn_english file g text true))
      text = Ok recs /\
    recs <> [] /\
    List.length recs = Nat.min RECOMMENDATION_COUNT (List.length (records df)) /\
    calls (app_script nltk_english sklearn_english file g text true)
    = st_markdown "### Top 5 Recommended Movies"
      :: flat_map show_movie (enumerate recs) /\
    existsb is_warning
      (calls (app_script nltk_english sklearn_english file g text true))
    = false /\
    existsb is_error
      (calls (app_script nltk_english sklearn_english file g text true))
    = false.
Proof.
  unfold app_script.
  destruct (load_and_preprocess_data nltk_english sklearn_english file g)
    as [[|] g'] eqn:Hb; cbn [stopped calls globals_after]; [|discriminate].
  intros _ Hne.
  destruct (query_built _ _ _ _ _ text Hb)
    as (df & v & m & u & cs & Hdf & _ & _ & _ & _ & _ & Hlen & Hrows & Hrec).
  destruct (top_indices_spec cs) as (Hk & _ & Hrange & _).
  rewrite Hlen in Hrange, Hk.
  rewrite (iloc_in_range df _ Hrange) in Hrec.
  set (recs := map _ (top_indices cs)) in Hrec.
  assert (Hl : List.length recs
               = Nat.min RECOMMENDATION_COUNT (List.length (records df)))
    by (unfold recs; now rewrite length_map).
  assert (Hnil : recs <> []).
  { intros E. rewrite E in Hl. simpl in Hl.
    destruct (records df); [contradiction|discriminate]. }
  exists df, recs. split; [exact Hdf|]. split; [exact Hrec|].
  split; [exact Hnil|]. split; [exact Hl|].
  destruct recs as [|first others] eqn:Er; [contradiction|].
  rewrite (on_click_answered _ _ _ _ Hne Hrec).
  split; [reflexivity|].
  destruct (show_movie_quiet (enumerate (first :: others))) as [Hw He].
  split; cbn [existsb is_warning is_error orb]; assumption.
Qed.

(** X15: the guard of the page only catches the empty text.  After a click
    with a text of whitespace only, a run that is not stopped shows the first
    min(5, corpus size) rows of the table as recommendations. *)
Theorem whitespace_click_shows_first_rows file g text :
  stopped (app_script nltk_english sklearn_english file g text true) = false ->
  text <> EmptyString ->
  blank text = true ->
  exists df,
    movies_df (globals_after
                 (app_script nltk_english sklearn_english file g text true))
    = Some df /\
    calls (app_script nltk_english sklearn_english file g text true)
    = st_markdown "### Top 5 Recommended Movies"
      :: flat_map show_movie
           (enumerate (firstn RECOMMENDATION_COUNT (records df))).
Proof.
  unfold app_script.
  destruct (load_and_preprocess_data nltk_english sklearn_english file g)
    as [[|] g'] eqn:Hb; cbn [stopped calls globals_after]; [|discriminate].
  intros _ Hne Hblank.
  destruct (recommend_blank _ _ _ _ _ text Hb Hblank)
    as (df & cs & Hdf & _ & _ & _ & Hrows & Hrec).
  exists df. split; [exact Hdf|].
  destruct (records df) as [|first others] eqn:Er; [contradiction|].
  cbn [firstn RECOMMENDATION_COUNT] in *.
  now apply on_click_answered.
Qed.

End MoreFacts.

(** ** The sample corpus and the sample page, again *)

Example scrape_sample_page :
  Scraper.scrape_imdb sample_page
  = [ {| Scraper.scraped_name := "Dune: Part Two";
         Scraper.scraped_storyline := "Paul Atreides unites with the Fremen." |};
      {| Scraper.scraped_name := "Untold";
         Scraper.scraped_storyline := "N/A" |} ].
Proof. reflexivity. Qed.

Example page_table :
  movies_df page_globals
  = Some {| records := [movie_dune];
            Cleaned_Storyline := Some ["paul atreides unites with fremen"] |}.
Proof. reflexivity. Qed.

Lemma word_order_is_irrelevant_witness :
  Permutation (raw_words "dragon wizard") (raw_words "wizard dragon") /\
  get_recommendations sample_nltk sample_globals "dragon wizard"
  = get_recommendations sample_nltk sample_globals "wizard dragon".
Proof.
  assert (H : Permutation (raw_words "dragon wizard")
                          (raw_words "wizard dragon"))
    by (vm_compute; apply perm_swap).
  split; [exact H|].
  exact (word_order_is_irrelevant sample_nltk sample_globals _ _ H).
Defined.

Lemma unknown_terms_query_returns_first_rows_witness :
  load_and_preprocess_data sample_nltk sample_sklearn sample_file
    initial_globals = (true, sample_globals) /\
  get_recommendations sample_nltk sample_globals "zebra crossing"
  = Ok [movie_A; movie_B].
Proof.
  split; [reflexivity|].
  destruct (unknown_terms_query_returns_first_rows sample_nltk sample_sklearn
              sample_file initial_globals sample_globals _ "zebra crossing"
              eq_refl sample_table) as (cs & _ & _ & Hr); [|exact Hr].
  intros w mv Hw _ Hmv Hin. vm_compute in Hw. simpl in Hmv.
  destruct Hmv as [<-|[<-|[]]]; vm_compute in Hin;
    destruct Hw as [<-|[<-|[]]]; intuition discriminate.
Defined.

Lemma scraped_name_drops_first_token_witness :
  Scraper.scrape_item item_dune
  = inr {| Scraper.scraped_name := "Dune: Part Two";
           Scraper.scraped_storyline :=
             "Paul Atreides unites with the Fremen." |}.
Proof.
  exact (scraped_name_drops_first_token item_dune "1." "Dune: Part Two"
           "Paul Atreides unites with the Fremen. " eq_refl eq_refl eq_refl).
Defined.

Lemma title_without_space_is_skipped_witness :
  Scraper.scrape_item item_tenet = inl Scraper.ListIndexError /\
  Scraper.scrape_imdb [item_tenet; item_dune] = Scraper.scrape_imdb [item_dune].
Proof.
  apply (title_without_space_is_skipped item_tenet "Tenet" [item_dune]);
    [reflexivity|discriminate|reflexivity].
Defined.

Lemma recommended_movies_have_a_scraped_storyline_witness :
  load_and_preprocess_data sample_nltk sample_sklearn
    (Scraper.main sample_page) initial_globals = (true, page_globals) /\
  get_recommendations sample_nltk page_globals " " = Ok [movie_dune] /\
  exists e,
    In e (Scraper.scrape_imdb sample_page) /\
    Storyline movie_dune = Some (Scraper.scraped_storyline e) /\
    Scraper.scraped_storyline e <> "N/A".
Proof.
  assert (Hr : get_recommendations sample_nltk page_globals " "
               = Ok [movie_dune]).
  { destruct (recommend_blank sample_nltk sample_sklearn
                (Scraper.main sample_page) initial_globals page_globals " "
                eq_refl eq_refl) as (df & cs & Hdf & _ & _ & _ & _ & Hr).
    rewrite page_table in Hdf. inversion Hdf; subst df. exact Hr. }
  split; [reflexivity|]. split; [exact Hr|].
  destruct (recommended_movies_have_a_scraped_storyline sample_nltk
              sample_sklearn sample_page initial_globals page_globals
              " " [movie_dune] movie_dune eq_refl Hr (or_introl eq_refl))
    as (e & He & Hs & Hna & _).
  exists e. auto.
Defined.

Lemma click_shows_recommendations_witness :
  stopped (app_script sample_nltk sample_sklearn sample_file
             half_built_globals "a wizard" true) = false /\
  exists recs,
    recs <> [] /\
    calls (app_script sample_nltk sample_sklearn sample_file
             half_built_globals "a wizard" true)
    = st_markdown "### Top 5 Recommended Movies"
      :: flat_map show_movie (enumerate recs).
Proof.
  split; [reflexivity|].
  destruct (click_shows_recommendations sample_nltk sample_sklearn sample_file
              half_built_globals "a wizard" eq_refl)
    as (df & recs & _ & _ & Hne & _ & Hc & _); [discriminate|].
  exists recs. auto.
Defined.

Lemma whitespace_click_shows_first_rows_witness :
  stopped (app_script sample_nltk sample_sklearn sample_file
             initial_globals "   " true) = false /\
  blank "   " = true /\
  calls (app_script sample_nltk sample_sklearn sample_file
           initial_globals "   " true)
  = [st_markdown "### Top 5 Recommended Movies";
     st_markdown "*1. A*";
     st_write "*Storyline:* a wizard battles a dragon";
     st_markdown "---";
     st_markdown "*2. B*";
     st_write "*Storyline:* a detective solves a murder";
     st_markdown "---"].
Proof.
  split; [reflexivity|]. split; [reflexivity|].
  destruct (whitespace_click_shows_first_rows sample_nltk sample_sklearn
              sample_file initial_globals "   " eq_refl)
    as (df & Hdf & Hc); [discriminate|reflexivity|].
  change (globals_after
            (app_script sample_nltk sample_sklearn sample_file
               initial_globals "   " true))
    with sample_globals in Hdf.
  rewrite sample_table in Hdf. inversion Hdf; subst df. exact Hc.
Defined.




Lemma records_without_storyline_are_excluded_witness :
  no_storyline record_C = true /\
  filter (fun r => negb (no_storyline r)) [record_A; record_C; record_B]
  = [record_A; record_B] /\
  tfidf_matrix sample_globals
  = tfidf_matrix
      (snd (load_and_preprocess_data sample_nltk sample_sklearn
              (Records [record_A; record_B]) initial_globals)) /\
  forall q recs mv,
    get_recommendations sample_nltk sample_globals q = Ok recs ->
    In mv recs -> In mv [movie_A; movie_B].
Proof.
  destruct (records_without_storyline_are_excluded sample_nltk sample_sklearn
              [record_A; record_C; record_B] initial_globals)
    as (_ & _ & Hmat & Hbuilt).
  split; [reflexivity|]. split; [reflexivity|]. split; [exact Hmat|].
  destruct (Hbuilt sample_globals eq_refl) as (df & m & Hdf & _ & _ & _ & Hrec).
  rewrite sample_table in Hdf. inversion Hdf; subst df. exact Hrec.
Defined.

Lemma build_succeeds_only_with_some_term_witness :
  fst (load_and_preprocess_data sample_nltk sample_sklearn sample_file
         initial_globals) = true /\
  exists r text w,
    In r [record_A; record_C; record_B] /\
    storyline_field r = Some text /\ In w (raw_words text) /\
    survives sample_nltk sample_sklearn w = true.
Proof.
  split; [reflexivity|].
  destruct (build_succeeds_only_with_some_term sample_nltk sample_sklearn
              sample_file initial_globals eq_refl)
    as (rs & r & text & w & Hf & Hr & Hs & _ & Hw & Hk).
  inversion Hf; subst rs. exists r, text, w. auto.
Defined.

Lemma build_without_usable_record_makes_queries_raise_witness :
  tfidf_matrix sample_globals <> None /\
  usable_movies [record_C] = [] /\
  get_recommendations sample_nltk half_built_globals "a wizard"
  = Raise NotFittedError.
Proof.
  assert (Hm : tfidf_matrix sample_globals <> None) by discriminate.
  split; [exact Hm|]. split; [reflexivity|].
  exact (proj2 (build_without_usable_record_makes_queries_raise sample_nltk
                  sample_sklearn [record_C] sample_globals "a wizard"
                  Hm eq_refl)).
Defined.
